(** * Code-Tracker: CSV import/export and dashboard statistics

    A shallow embedding of the pure logic found in
    [src/pages/NewProblemPage.tsx] (the import/export page: [handleExport],
    [handleImport], [parseCSVLine]), [src/pages/Dashboard.tsx]
    ([fetchStats], [calculateStreak]) and [src/pages/AnalyticsPage.tsx]
    ([activityData]).

    Conventions.
    - A JavaScript string is the list of its UTF-16 code units, each a
      natural number ([N]).
    - A JavaScript object is its list of properties in insertion order.
    - An instant is a number of milliseconds since the epoch ([Z]).  The
      modules [LocalTime], [Dashboard] and [Analytics] take the local
      time zone at a fixed offset from UTC; the module [Zoned] repeats
      the statistics for a zone whose clocks change, and agrees with
      them when the clocks do not. *)

From Stdlib Require Import List NArith ZArith Bool Lia String Ascii.
From Stdlib Require Import Sorted Permutation.
Import ListNotations.

(** ** JavaScript strings *)

Module JsString.

Definition jsstring := list N.

(** The code units of an ASCII literal. *)
Definition js (s : string) : jsstring :=
  List.map N_of_ascii (list_ascii_of_string s).

Definition comma : N := 44.
Definition dquote : N := 34.
Definition newline : N := 10.

Fixpoint str_eqb (a b : jsstring) : bool :=
  match a, b with
  | [], [] => true
  | x :: a', y :: b' => N.eqb x y && str_eqb a' b'
  | _, _ => false
  end.

(** [s.includes(c)] for a one-character needle. *)
Definition includes (c : N) (s : jsstring) : bool := existsb (N.eqb c) s.

(** [array.includes(value)] on an array of strings. *)
Definition array_includes (arr : list jsstring) (value : jsstring) : bool :=
  existsb (str_eqb value) arr.

(** [s.split(sep)] for a one-character separator. *)
Fixpoint split (sep : N) (s : jsstring) : list jsstring :=
  match s with
  | [] => [[]]
  | c :: rest =>
      if N.eqb c sep then [] :: split sep rest
      else match split sep rest with
           | [] => [[c]]
           | field :: fields => (c :: field) :: fields
           end
  end.

(** [array.join(sep)]. *)
Fixpoint join (sep : jsstring) (arr : list jsstring) : jsstring :=
  match arr with
  | [] => []
  | x :: rest =>
      match rest with
      | [] => x
      | _ :: _ => x ++ sep ++ join sep rest
      end
  end.

(** ECMAScript WhiteSpace and LineTerminator code units, the characters
    removed by [String.prototype.trim]. *)
Definition is_white_space (c : N) : bool :=
  existsb (N.eqb c)
    [9; 10; 11; 12; 13; 32; 160; 5760; 8232; 8233; 8239; 8287; 12288; 65279]%N
  || (N.leb 8192 c && N.leb c 8202).

Fixpoint trim_start (s : jsstring) : jsstring :=
  match s with
  | [] => []
  | c :: rest => if is_white_space c then trim_start rest else s
  end.

Definition trim (s : jsstring) : jsstring :=
  rev (trim_start (rev (trim_start s))).

(** [s.replace(re, by_)] where [re] is the global pattern matching one
    double quote: every double quote of [s] becomes [by_]. *)
Definition replace_quotes (by_ : jsstring) (s : jsstring) : jsstring :=
  flat_map (fun c => if N.eqb c dquote then by_ else [c]) s.

(** Truthiness of a string: non-empty. *)
Definition truthy (s : jsstring) : bool :=
  match s with [] => false | _ :: _ => true end.

End JsString.
Import JsString.

(** ** JavaScript values and objects *)

Module JsObject.

(** The values held by the properties of a problem row. *)
Inductive jsval :=
| Undefined
| Null
| Str (s : jsstring).

Definition object := list (jsstring * jsval).

(** [o[key]]: the value of the property, [Undefined] when absent. *)
Fixpoint get (o : object) (key : jsstring) : jsval :=
  match o with
  | [] => Undefined
  | (k, v) :: rest => if str_eqb k key then v else get rest key
  end.

(** [o[key] = v]: overwrite in place, or append a new property. *)
Fixpoint set (o : object) (key : jsstring) (v : jsval) : object :=
  match o with
  | [] => [(key, v)]
  | (k, w) :: rest =>
      if str_eqb k key then (k, v) :: rest else (k, w) :: set rest key v
  end.

(** [!v] for the values above. *)
Definition falsy (v : jsval) : bool :=
  match v with
  | Str s => negb (truthy s)
  | Undefined | Null => true
  end.

End JsObject.
Import JsObject.

(** ** The import/export page *)

Module ImportExport.

(** *** [handleExport] *)

Definition export_headers : list jsstring :=
  [js "title"; js "platform"; js "difficulty"; js "topic"; js "status";
   js "problem_url"; js "solution_url"; js "notes"; js "solved_at";
   js "created_at"].

(** The callback of [headers.map] inside [handleExport], applied to
    [problem[header]].  The columns hold strings, so [String(value)] is
    the value itself. *)
Definition export_field (value : jsval) : jsstring :=
  match value with
  | Undefined | Null => []
  | Str stringValue =>
      if includes comma stringValue || includes dquote stringValue
         || includes newline stringValue
      then [dquote] ++ replace_quotes [dquote; dquote] stringValue ++ [dquote]
      else stringValue
  end.

Definition export_row (problem : object) : jsstring :=
  join [comma] (List.map (fun header => export_field (get problem header))
                         export_headers).

(** [csvContent], the text handed to the download. *)
Definition handleExport (data : list object) : jsstring :=
  join [newline] (join [comma] export_headers :: List.map export_row data).

(** *** [parseCSVLine] *)

Fixpoint parse_loop (line : jsstring) (result : list jsstring)
    (current : jsstring) (inQuotes : bool) : list jsstring :=
  match line with
  | [] => result ++ [current]
  | char :: rest =>
      if N.eqb char dquote then
        match rest with
        | next :: rest' =>
            if inQuotes && N.eqb next dquote
            then parse_loop rest' result (current ++ [dquote]) inQuotes
            else parse_loop rest result current (negb inQuotes)
        | [] => parse_loop rest result current (negb inQuotes)
        end
      else if N.eqb char comma && negb inQuotes
      then parse_loop rest (result ++ [current]) [] inQuotes
      else parse_loop rest result (current ++ [char]) inQuotes
  end.

Definition parseCSVLine (line : jsstring) : list jsstring :=
  parse_loop line [] [] false.

(** *** [handleImport] *)

Section Importer.

(** [user.id] of the signed-in user. *)
Variable user_id : jsstring.

(** [!isNaN(Date.parse(value))]: the host's date parser, left abstract. *)
Variable date_parse_ok : jsstring -> bool.

Definition nonblank_lines (text : jsstring) : list jsstring :=
  filter (fun line => truthy (trim line)) (split newline text).

Definition parse_headers (line0 : jsstring) : list jsstring :=
  List.map (fun h => replace_quotes [] (trim h)) (split comma line0).

Definition requiredHeaders : list jsstring :=
  [js "title"; js "platform"; js "difficulty"; js "topic"].

Definition missingHeaders (headers : list jsstring) : list jsstring :=
  filter (fun h => negb (array_includes headers h)) requiredHeaders.

Definition difficulties : list jsstring := [js "Easy"; js "Medium"; js "Hard"].
Definition statuses : list jsstring :=
  [js "Todo"; js "In Progress"; js "Solved"; js "Reviewed"].

(** The [switch (header)] of the [forEach] callback. *)
Definition assign_field (problem : object) (header value : jsstring) : object :=
  if array_includes [js "title"; js "platform"; js "topic"] header then
    set problem header (Str value)
  else if str_eqb header (js "difficulty") then
    set problem header
      (Str (if array_includes difficulties value then value else js "Easy"))
  else if str_eqb header (js "status") then
    set problem header
      (Str (if array_includes statuses value then value else js "Todo"))
  else if array_includes [js "problem_url"; js "solution_url"; js "notes"] header
  then set problem header (if truthy value then Str value else Null)
  else if str_eqb header (js "solved_at") then
    set problem header
      (if truthy value && date_parse_ok value then Str value else Null)
  else problem.

(** [values[index]?.trim() || ''] *)
Definition value_at (values : list jsstring) (index : nat) : jsstring :=
  match nth_error values index with
  | Some v => trim v
  | None => []
  end.

(** [headers.forEach((header, index) => ...)], from position [index] on. *)
Fixpoint forEach_header (headers : list jsstring) (index : nat)
    (values : list jsstring) (problem : object) : object :=
  match headers with
  | [] => problem
  | header :: rest =>
      forEach_header rest (S index) values
        (assign_field problem header (value_at values index))
  end.

Definition build_problem (headers values : list jsstring) : object :=
  forEach_header headers 0 values [(js "user_id", Str user_id)].

(** The required-field test that guards [problems.push]. *)
Definition lacks_required (problem : object) : bool :=
  falsy (get problem (js "title")) || falsy (get problem (js "platform"))
  || falsy (get problem (js "difficulty")) || falsy (get problem (js "topic")).

(** One turn of the [for] loop over the data lines. *)
Inductive row_outcome :=
| RowEmpty                      (* [values.length === 0]: [continue] *)
| RowSkipped                    (* [console.warn], then [continue] *)
| RowPushed (problem : object). (* [problems.push(problem)] *)

Definition import_row (headers : list jsstring) (line : jsstring) : row_outcome :=
  let values := parseCSVLine line in
  if Nat.eqb (List.length values) 0 then RowEmpty
  else
    let problem := build_problem headers values in
    if lacks_required problem then RowSkipped else RowPushed problem.

(** The loop [for (let i = 1; i < lines.length; i++)], entered at index
    [i] with the lines from [i] on.  It yields the row numbers [i + 1]
    named by the console warnings [Skipping row ${i + 1}: Missing required
    fields], and the array [problems]. *)
Fixpoint import_rows (headers : list jsstring) (i : nat)
    (lines : list jsstring) : list nat * list object :=
  match lines with
  | [] => ([], [])
  | line :: rest =>
      let (warnings, problems) := import_rows headers (S i) rest in
      match import_row headers line with
      | RowEmpty => (warnings, problems)
      | RowSkipped => ((i + 1)%nat :: warnings, problems)
      | RowPushed problem => (warnings, problem :: problems)
      end
  end.

(** The messages of the three [throw new Error(...)]. *)
Definition msg_too_short : jsstring :=
  js "CSV file must have a header row and at least one data row".
Definition msg_missing_headers (missing : list jsstring) : jsstring :=
  js "Missing required headers: " ++ join (js ", ") missing.
Definition msg_no_valid : jsstring :=
  js "No valid problems found in the CSV file".

(** What [handleImport] does with the text of the file: the console
    warnings, and either the message of the error that is thrown (shown by
    the failure toast) or the rows handed to the database insert (the
    success toast reports their number).  The insert itself belongs to
    the database client; an error it returns is rethrown by the handler
    and is not part of this model. *)
Definition handleImport (text : jsstring)
    : list nat * (jsstring + list object) :=
  let lines := nonblank_lines text in
  if Nat.ltb (List.length lines) 2 then ([], inl msg_too_short)
  else
    let headers := parse_headers (hd [] lines) in
    let missing := missingHeaders headers in
    if Nat.ltb 0 (List.length missing)
    then ([], inl (msg_missing_headers missing))
    else
      let (warnings, problems) := import_rows headers 1 (tl lines) in
      if Nat.eqb (List.length problems) 0 then (warnings, inl msg_no_valid)
      else (warnings, inr problems).

End Importer.

End ImportExport.

(** ** Instants and local calendar days *)

Module LocalTime.

Section Zone.

(** Local time is UTC plus [tz_offset] milliseconds, at every instant:
    a zone without daylight-saving time. *)
Variable tz_offset : Z.

Definition msPerDay : Z := 86400000.

(** [new Date(t).toDateString()].  The text names the local calendar day
    of the instant and nothing else; it is represented by the number of
    that day. *)
Definition toDateString (t : Z) : Z := ((t + tz_offset) / msPerDay)%Z.

(** [new Date(dateString).getTime()] for the text of a local calendar
    day: local midnight of that day. *)
Definition dateStringTime (day : Z) : Z := (day * msPerDay - tz_offset)%Z.

(** [date.setDate(date.getDate() + n)]: move by [n] local calendar days,
    keeping the local time of day. *)
Definition addDays (t : Z) (n : Z) : Z :=
  ((t + tz_offset + n * msPerDay) - tz_offset)%Z.

(** [date.toISOString().split('T')[0]]: the UTC calendar day of the
    instant, represented by its number. *)
Definition isoDate (t : Z) : Z := (t / msPerDay)%Z.

End Zone.

End LocalTime.
Import LocalTime.

(** ** The dashboard *)

Module Dashboard.

(** A row of the [problems] table, as far as the statistics read it.
    [solved_at] is the instant denoted by the column's timestamp. *)
Record problem := { status : jsstring; solved_at : option Z }.

(** [Array.prototype.sort(compare)]: a stable sort, [a] before [b] when
    [compare a b <= 0]. *)
Fixpoint sort_insert {A : Type} (compare : A -> A -> Z) (x : A) (l : list A)
    : list A :=
  match l with
  | [] => [x]
  | y :: rest =>
      if Z.leb (compare x y) 0%Z then x :: l else y :: sort_insert compare x rest
  end.

Fixpoint sort {A : Type} (compare : A -> A -> Z) (l : list A) : list A :=
  match l with
  | [] => []
  | x :: rest => sort_insert compare x (sort compare rest)
  end.

(** [[...new Set(l)]]: the first occurrence of each element, in order. *)
Fixpoint set_values (seen : list Z) (l : list Z) : list Z :=
  match l with
  | [] => []
  | x :: rest =>
      if existsb (Z.eqb x) seen then set_values seen rest
      else x :: set_values (x :: seen) rest
  end.

Section Stats.

Variable tz_offset : Z.

(** The query of [fetchStats]: rows with status Solved and a non-null
    [solved_at]. *)
Definition solvedProblems (rows : list problem) : list problem :=
  filter (fun p => str_eqb (status p) (js "Solved")
                   && match solved_at p with Some _ => true | None => false end)
         rows.

Definition since (bound : Z) (p : problem) : bool :=
  match solved_at p with
  | Some t => Z.leb bound t
  | None => false
  end.

Definition last7Days (rows : list problem) (now : Z) : nat :=
  let sevenDaysAgo := addDays tz_offset now (-7)%Z in
  List.length (filter (since sevenDaysAgo) (solvedProblems rows)).

(** The [for] loop of [calculateStreak] from index [i] on, with
    [prev = uniqueDates[i-1]]: the number of times [streak++] runs.
    [diffDays === 1] holds exactly when the difference of the two
    instants is one day's worth of milliseconds. *)
Fixpoint count_consecutive (prev : Z) (dates : list Z) : nat :=
  match dates with
  | [] => 0
  | curr :: rest =>
      let diff :=
        (dateStringTime tz_offset prev - dateStringTime tz_offset curr)%Z in
      if Z.eqb diff (1000 * 3600 * 24)%Z then S (count_consecutive curr rest)
      else 0
  end.

Definition solvedDates (problems : list problem) : list Z :=
  sort (fun a b => (dateStringTime tz_offset b - dateStringTime tz_offset a)%Z)
    (flat_map (fun p => match solved_at p with
                        | Some t => [toDateString tz_offset t]
                        | None => []
                        end) problems).

Definition uniqueDates (problems : list problem) : list Z :=
  set_values [] (solvedDates problems).

Definition calculateStreak (problems : list problem) (now : Z) : nat :=
  if Nat.eqb (List.length problems) 0 then 0
  else
    match uniqueDates problems with
    | [] => 0
    | first :: rest =>
        let today := toDateString tz_offset now in
        if Z.eqb first today
           || Z.eqb first (toDateString tz_offset (now - 86400000)%Z)
        then 1 + count_consecutive first rest
        else 0
    end.

(** [currentStreak] as [fetchStats] computes it. *)
Definition currentStreak (rows : list problem) (now : Z) : nat :=
  calculateStreak (solvedProblems rows) now.

End Stats.

End Dashboard.

(** ** The analytics page *)

Module Analytics.

(** A row of the [problems] table, as far as [activityData] reads it. *)
Record problem := { solved_at : option Z }.

Record ActivityData := { date : Z; solved : nat }.

Section Activity.

Variable tz_offset : Z.

Definition solved_on (day : Z) (p : problem) : bool :=
  match solved_at p with
  | Some t => Z.eqb (toDateString tz_offset t) day
  | None => false
  end.

(** The body of the loop for one value of [i]. *)
Definition activity_entry (problems : list problem) (today : Z) (i : nat)
    : ActivityData :=
  let date := addDays tz_offset today (- Z.of_nat i) in
  let dateStr := isoDate date in
  let solvedCount :=
    List.length (filter (solved_on (toDateString tz_offset date)) problems) in
  {| date := dateStr; solved := solvedCount |}.

(** [for (let i = n - 1; i >= 0; i--) last30Days.push(...)] *)
Fixpoint activity_loop (problems : list problem) (today : Z) (n : nat)
    : list ActivityData :=
  match n with
  | O => []
  | S i => activity_entry problems today i :: activity_loop problems today i
  end.

Definition activityData (problems : list problem) (now : Z)
    : list ActivityData :=
  activity_loop problems now 30.

End Activity.

End Analytics.

(** ** The same statistics in a zone whose clocks change *)

Module Zoned.

(** A time zone whose clocks change at most once: local time is UTC plus
    [before] milliseconds at the instants earlier than [change], and UTC
    plus [after] milliseconds from [change] on.  In New York in the
    autumn of 2025, [before] is minus four hours, [after] is minus five
    hours and [change] is 06:00 UTC of 2 November. *)
Record zone := { before : Z; change : Z; after : Z }.

(** A zone at a fixed offset from UTC. *)
Definition unchanging (tz_offset : Z) : zone :=
  {| before := tz_offset; change := 0; after := tz_offset |}.

Section Zone.

Variable z : zone.

Definition offset_at (t : Z) : Z :=
  if Z.ltb t (change z) then before z else after z.

(** [LocalTime(t)] of ECMAScript: the local wall-clock reading of an
    instant, in milliseconds. *)
Definition local_time (t : Z) : Z := (t + offset_at t)%Z.

(** [UTC(t)] of ECMAScript: the instant of a local wall-clock reading.
    A reading that occurs twice denotes the earlier instant; a reading
    that the clocks skip is taken at the offset in force before the
    change. *)
Definition utc (l : Z) : Z :=
  if Z.ltb (l - before z) (change z) then (l - before z)%Z
  else if Z.leb (change z) (l - after z) then (l - after z)%Z
  else (l - before z)%Z.

(** [new Date(t).toDateString()], represented by the number of the local
    calendar day. *)
Definition toDateString (t : Z) : Z := (local_time t / msPerDay)%Z.

(** [new Date(dateString).getTime()]: local midnight of the day. *)
Definition dateStringTime (day : Z) : Z := utc (day * msPerDay)%Z.

(** [date.setDate(date.getDate() + n)]: the local wall-clock reading is
    moved by [n] calendar days and converted back to an instant. *)
Definition addDays (t : Z) (n : Z) : Z :=
  utc (local_time t + n * msPerDay)%Z.

(** [fetchStats] of [Dashboard.tsx], lines 62-67. *)
Definition last7Days (rows : list Dashboard.problem) (now : Z) : nat :=
  let sevenDaysAgo := addDays now (-7)%Z in
  List.length
    (filter (Dashboard.since sevenDaysAgo) (Dashboard.solvedProblems rows)).

(** [calculateStreak] of [Dashboard.tsx], lines 78-112. *)
Fixpoint count_consecutive (prev : Z) (dates : list Z) : nat :=
  match dates with
  | [] => 0
  | curr :: rest =>
      let diff := (dateStringTime prev - dateStringTime curr)%Z in
      if Z.eqb diff (1000 * 3600 * 24)%Z then S (count_consecutive curr rest)
      else 0
  end.

Definition solvedDates (problems : list Dashboard.problem) : list Z :=
  Dashboard.sort (fun a b => (dateStringTime b - dateStringTime a)%Z)
    (flat_map (fun p => match Dashboard.solved_at p with
                        | Some t => [toDateString t]
                        | None => []
                        end) problems).

Definition uniqueDates (problems : list Dashboard.problem) : list Z :=
  Dashboard.set_values [] (solvedDates problems).

Definition calculateStreak (problems : list Dashboard.problem) (now : Z)
    : nat :=
  if Nat.eqb (List.length problems) 0 then 0
  else
    match uniqueDates problems with
    | [] => 0
    | first :: rest =>
        let today := toDateString now in
        if Z.eqb first today
           || Z.eqb first (toDateString (now - 86400000)%Z)
        then 1 + count_consecutive first rest
        else 0
    end.

Definition currentStreak (rows : list Dashboard.problem) (now : Z) : nat :=
  calculateStreak (Dashboard.solvedProblems rows) now.

(** [activityData] of [AnalyticsPage.tsx], lines 85-105. *)
Definition solved_on (day : Z) (p : Analytics.problem) : bool :=
  match Analytics.solved_at p with
  | Some t => Z.eqb (toDateString t) day
  | None => false
  end.

Definition activity_entry (problems : list Analytics.problem) (today : Z)
    (i : nat) : Analytics.ActivityData :=
  let date := addDays today (- Z.of_nat i) in
  let dateStr := isoDate date in
  let solvedCount :=
    List.length (filter (solved_on (toDateString date)) problems) in
  {| Analytics.date := dateStr; Analytics.solved := solvedCount |}.

Fixpoint activity_loop (problems : list Analytics.problem) (today : Z)
    (n : nat) : list Analytics.ActivityData :=
  match n with
  | O => []
  | S i => activity_entry problems today i :: activity_loop problems today i
  end.

Definition activityData (problems : list Analytics.problem) (now : Z)
    : list Analytics.ActivityData :=
  activity_loop problems now 30.

End Zone.

End Zoned.

(** ** Further parts of the pages *)

(** [totalSolved] of [fetchStats] in [Dashboard.tsx]: the number of rows
    returned by its query. *)
Module FetchStats.

Definition totalSolved (rows : list Dashboard.problem) : nat :=
  List.length (Dashboard.solvedProblems rows).

End FetchStats.

(** [[...new Set(l)]] for an array of strings: the first occurrence of
    each element, in order. *)
Fixpoint set_of_strings (seen : list jsstring) (l : list jsstring)
    : list jsstring :=
  match l with
  | [] => []
  | x :: rest =>
      if array_includes seen x then set_of_strings seen rest
      else x :: set_of_strings (x :: seen) rest
  end.

(** [hay.includes(needle)] for strings: [needle] occurs in [hay]. *)
Fixpoint starts_with (needle hay : jsstring) : bool :=
  match needle, hay with
  | [], _ => true
  | _ :: _, [] => false
  | x :: needle', y :: hay' => N.eqb x y && starts_with needle' hay'
  end.

Fixpoint str_includes (hay needle : jsstring) : bool :=
  starts_with needle hay
  || match hay with
     | [] => false
     | _ :: rest => str_includes rest needle
     end.

(** The charts of [AnalyticsPage.tsx] other than the activity series. *)
Module Charts.

(** The interface [Problem] of the page. *)
Record problem := {
  difficulty : jsstring;
  topic : jsstring;
  status : jsstring;
  solved_at : option Z;
  created_at : Z
}.

Record DifficultyData := { name : jsstring; value : nat; color : jsstring }.

Definition with_difficulty (d : jsstring) (problems : list problem) : nat :=
  List.length (filter (fun p => str_eqb (difficulty p) d) problems).

Definition difficultyData (problems : list problem) : list DifficultyData :=
  filter (fun item => Nat.ltb 0 (value item))
    [ {| name := js "Easy"; value := with_difficulty (js "Easy") problems;
         color := js "#22c55e" |};
      {| name := js "Medium"; value := with_difficulty (js "Medium") problems;
         color := js "#f59e0b" |};
      {| name := js "Hard"; value := with_difficulty (js "Hard") problems;
         color := js "#ef4444" |} ].

End Charts.

(** [topicData] of [AnalyticsPage.tsx]. *)
Module TopicChart.

Record TopicData := { topic : jsstring; count : nat }.

(** The own properties of the accumulator of the [reduce], in the order
    of their creation.  The accumulator is a plain object, so a topic
    that names a property inherited from [Object.prototype] reads that
    property instead of a count; the model covers the other topics. *)
Definition counts := list (jsstring * nat).

Definition object_prototype_names : list jsstring :=
  [js "constructor"; js "hasOwnProperty"; js "isPrototypeOf";
   js "propertyIsEnumerable"; js "toLocaleString"; js "toString";
   js "valueOf"; js "__defineGetter__"; js "__defineSetter__";
   js "__lookupGetter__"; js "__lookupSetter__"; js "__proto__"].

(** [acc[key] = (acc[key] || 0) + 1] *)
Fixpoint bump (acc : counts) (key : jsstring) : counts :=
  match acc with
  | [] => [(key, 1%nat)]
  | (k, n) :: rest =>
      if str_eqb k key then (k, S n) :: rest else (k, n) :: bump rest key
  end.

(** A property key is an array index when it is the canonical decimal
    text of an integer from 0 to 2^32 - 2. *)
Definition is_digit (c : N) : bool := N.leb 48 c && N.leb c 57.

Definition digits_value (s : jsstring) : N :=
  fold_left (fun acc c => (acc * 10 + (c - 48))%N) s 0%N.

Definition array_index (key : jsstring) : option N :=
  match key with
  | [] => None
  | c :: rest =>
      if forallb is_digit key
         && (negb (N.eqb c 48) || negb (truthy rest))
         && N.leb (digits_value key) 4294967294
      then Some (digits_value key)
      else None
  end.

(** [Object.entries(acc)]: the array-index keys in ascending numeric
    order, then the other keys in the order of their creation. *)
Definition entries (acc : counts) : list (jsstring * nat) :=
  Dashboard.sort
    (fun a b => (Z.of_N (digits_value (fst a))
                 - Z.of_N (digits_value (fst b)))%Z)
    (filter (fun e => match array_index (fst e) with
                      | Some _ => true
                      | None => false
                      end) acc)
  ++ filter (fun e => match array_index (fst e) with
                      | Some _ => false
                      | None => true
                      end) acc.

Definition topicData (problems : list Charts.problem) : list TopicData :=
  let acc :=
    fold_left (fun acc problem => bump acc (Charts.topic problem))
              problems [] in
  firstn 8
    (Dashboard.sort
       (fun a b => (Z.of_nat (count b) - Z.of_nat (count a))%Z)
       (List.map (fun e => {| topic := fst e; count := snd e |})
                 (entries acc))).

End TopicChart.

(** The list page, [ProblemsPage] as [AnalyticsPage.tsx] holds it. *)
Module ProblemsPage.

(** The interface [Problem] of the page. *)
Record problem := {
  id : jsstring;
  title : jsstring;
  platform : jsstring;
  difficulty : jsstring;
  topic : jsstring;
  status : jsstring;
  problem_url : option jsstring;
  solution_url : option jsstring;
  notes : option jsstring;
  solved_at : option jsstring;
  created_at : jsstring
}.


Definition uniqueTopics (problems : list problem) : list jsstring :=
  set_of_strings [] (List.map topic problems).

Section Filters.

(** [String.prototype.toLowerCase], left abstract. *)
Variable toLowerCase : jsstring -> jsstring.

Definition filteredProblems (problems : list problem)
    (searchQuery difficultyFilter statusFilter topicFilter : jsstring)
    : list problem :=
  filter
    (fun problem =>
       let matchesSearch :=
         str_includes (toLowerCase (title problem)) (toLowerCase searchQuery)
         || str_includes (toLowerCase (platform problem))
              (toLowerCase searchQuery)
         || str_includes (toLowerCase (topic problem))
              (toLowerCase searchQuery) in
       let matchesDifficulty :=
         str_eqb difficultyFilter (js "all")
         || str_eqb (difficulty problem) difficultyFilter in
       let matchesStatus :=
         str_eqb statusFilter (js "all")
         || str_eqb (status problem) statusFilter in
       let matchesTopic :=
         str_eqb topicFilter (js "all")
         || str_eqb (topic problem) topicFilter in
       matchesSearch && matchesDifficulty && matchesStatus && matchesTopic)
    problems.

End Filters.

End ProblemsPage.

(** * Vocabulary of the specification *)

Module Spec.

(** The number of commas of a line that lie outside quoted regions, a
    doubled quote inside a quoted region being a literal quote. *)
Fixpoint commas_outside_quotes (inQuotes : bool) (line : jsstring) : nat :=
  match line with
  | [] => 0
  | c :: rest =>
      if N.eqb c dquote then
        match rest with
        | next :: rest' =>
            if inQuotes && N.eqb next dquote
            then commas_outside_quotes inQuotes rest'
            else commas_outside_quotes (negb inQuotes) rest
        | [] => 0
        end
      else if N.eqb c comma && negb inQuotes
      then S (commas_outside_quotes inQuotes rest)
      else commas_outside_quotes inQuotes rest
  end.

(** A value with every double quote doubled. *)
Fixpoint double_quotes (s : jsstring) : jsstring :=
  match s with
  | [] => []
  | c :: rest =>
      if N.eqb c dquote then dquote :: dquote :: double_quotes rest
      else c :: double_quotes rest
  end.

(** The text a column value stands for: nothing for null and undefined. *)
Definition content (v : jsval) : jsstring :=
  match v with
  | Str s => s
  | Undefined | Null => []
  end.

(** The position of the last header equal to [key]. *)
Fixpoint last_index (key : jsstring) (headers : list jsstring) : option nat :=
  match headers with
  | [] => None
  | h :: rest =>
      match last_index key rest with
      | Some i => Some (S i)
      | None => if str_eqb h key then Some 0%nat else None
      end
  end.

(** The value that the [switch] of the import stores under a header, when
    it stores one. *)
Definition stored (date_parse_ok : jsstring -> bool)
    (header value : jsstring) : option jsval :=
  if array_includes [js "title"; js "platform"; js "topic"] header then
    Some (Str value)
  else if str_eqb header (js "difficulty") then
    Some (Str (if array_includes ImportExport.difficulties value
               then value else js "Easy"))
  else if str_eqb header (js "status") then
    Some (Str (if array_includes ImportExport.statuses value
               then value else js "Todo"))
  else if array_includes [js "problem_url"; js "solution_url"; js "notes"] header
  then Some (if truthy value then Str value else Null)
  else if str_eqb header (js "solved_at") then
    Some (if truthy value && date_parse_ok value then Str value else Null)
  else None.

(** The header names that the import acts on. *)
Definition known_headers : list jsstring :=
  [js "title"; js "platform"; js "topic"; js "difficulty"; js "status";
   js "problem_url"; js "solution_url"; js "notes"; js "solved_at"].

(** The error kinds of the CSV codec, and the message each one is thrown
    with. *)
Inductive import_failure :=
| MalformedInput
| MissingColumns (missing : list jsstring)
| NoValidRows.

Definition failure_message (f : import_failure) : jsstring :=
  match f with
  | MalformedInput => ImportExport.msg_too_short
  | MissingColumns missing => ImportExport.msg_missing_headers missing
  | NoValidRows => ImportExport.msg_no_valid
  end.

(** The header names and the data lines of a text. *)
Definition header_names (text : jsstring) : list jsstring :=
  ImportExport.parse_headers (hd [] (ImportExport.nonblank_lines text)).

Definition data_lines (text : jsstring) : list jsstring :=
  tl (ImportExport.nonblank_lines text).

(** A data line is skipped when per-row validation rejects it. *)
Definition skipped (user_id : jsstring) (date_parse_ok : jsstring -> bool)
    (headers : list jsstring) (line : jsstring) : Prop :=
  ImportExport.import_row user_id date_parse_ok headers line
  = ImportExport.RowSkipped.

Definition skippedb (user_id : jsstring) (date_parse_ok : jsstring -> bool)
    (headers : list jsstring) (line : jsstring) : bool :=
  match ImportExport.import_row user_id date_parse_ok headers line with
  | ImportExport.RowSkipped => true
  | _ => false
  end.

(** The number of data lines of a text skipped by per-row validation. *)
Definition skipped_rows (user_id : jsstring) (date_parse_ok : jsstring -> bool)
    (text : jsstring) : nat :=
  List.length (filter (skippedb user_id date_parse_ok (header_names text))
                      (data_lines text)).

(** The records built from the data lines that pass validation. *)
Definition valid_records (user_id : jsstring) (date_parse_ok : jsstring -> bool)
    (text : jsstring) : list object :=
  flat_map (fun line =>
              match ImportExport.import_row user_id date_parse_ok
                      (header_names text) line with
              | ImportExport.RowPushed problem => [problem]
              | _ => []
              end)
           (data_lines text).

(** Example texts: the four required headers, then one valid data row;
    the same with a row of empty title before the valid row. *)
Definition text_one_valid : jsstring :=
  js "title,platform,difficulty,topic" ++ [newline]
  ++ js "Two Sum,LeetCode,Easy,Arrays".

Definition text_invalid_then_valid : jsstring :=
  js "title,platform,difficulty,topic" ++ [newline]
  ++ js ",LeetCode,Easy,Arrays" ++ [newline]
  ++ js "Two Sum,LeetCode,Easy,Arrays".

(** A text value is plain when it holds no comma, no double quote and no
    newline; it is tidy when it is not empty and has no white space at
    either end. *)
Definition plain (s : jsstring) : bool :=
  negb (includes comma s || includes dquote s || includes newline s).

Definition tidy (s : jsstring) : bool :=
  truthy s && str_eqb (trim s) s.

(** The text columns compared by the round trip. *)
Definition text_columns : list jsstring :=
  [js "title"; js "platform"; js "difficulty"; js "topic"; js "status";
   js "problem_url"; js "solution_url"; js "notes"].

(** Example rows of the table: a well-formed one, and the same with a
    space in front of its title. *)
Definition row_two_sum : object :=
  [(js "title", Str (js "Two Sum")); (js "platform", Str (js "LeetCode"));
   (js "difficulty", Str (js "Easy")); (js "topic", Str (js "Arrays"));
   (js "status", Str (js "Solved")); (js "problem_url", Null);
   (js "solution_url", Null); (js "notes", Str (js "hash map"));
   (js "solved_at", Str (js "2025-08-17T08:27:14+00:00"));
   (js "created_at", Str (js "2025-08-16T10:00:00+00:00"))].

Definition row_leading_space : object :=
  set row_two_sum (js "title") (Str (js " Two Sum")).

(** A day is a solved day of a collection when some record of status
    Solved was solved at an instant of that local calendar day. *)
Definition solved_day (tz_offset : Z) (rows : list Dashboard.problem)
    (day : Z) : Prop :=
  exists p t,
    In p rows /\ Dashboard.status p = js "Solved"
    /\ Dashboard.solved_at p = Some t /\ toDateString tz_offset t = day.

(** The streak in the spec's words, over the list [D] of the distinct
    solved days in descending order: the number of entries counted after
    the first one, each exactly one day before the previous entry. *)
Fixpoint consecutive_run (prev : Z) (D : list Z) : nat :=
  match D with
  | [] => 0
  | d :: rest =>
      if Z.eqb (prev - d) 1 then S (consecutive_run d rest) else 0
  end.

Definition streak_of (D : list Z) (today : Z) : nat :=
  match D with
  | [] => 0
  | latest :: rest =>
      if Z.eqb latest today || Z.eqb latest (today - 1)
      then S (consecutive_run latest rest)
      else 0
  end.

(** Example collection: one record of status Solved at noon UTC of each
    of the days 8, 9 and 10 after the epoch. *)
Definition solved_at_noon (day : Z) : Dashboard.problem :=
  {| Dashboard.status := js "Solved";
     Dashboard.solved_at := Some (day * 86400000 + 43200000)%Z |}.

Definition three_days_running : list Dashboard.problem :=
  [solved_at_noon 9; solved_at_noon 10; solved_at_noon 8].

(** A record is solved between two instants when its status is Solved
    and its [solved_at] lies between them, bounds included; it is solved
    after an instant when its status is Solved and its [solved_at] is
    later. *)
Definition solved_between (lo hi : Z) (p : Dashboard.problem) : bool :=
  str_eqb (Dashboard.status p) (js "Solved")
  && match Dashboard.solved_at p with
     | Some t => Z.leb lo t && Z.leb t hi
     | None => false
     end.

Definition solved_after (bound : Z) (p : Dashboard.problem) : bool :=
  str_eqb (Dashboard.status p) (js "Solved")
  && match Dashboard.solved_at p with
     | Some t => Z.ltb bound t
     | None => false
     end.

Definition solved_from (bound : Z) (p : Dashboard.problem) : bool :=
  str_eqb (Dashboard.status p) (js "Solved")
  && match Dashboard.solved_at p with
     | Some t => Z.leb bound t
     | None => false
     end.

(** Seven times twenty-four hours, in milliseconds. *)
Definition seven_days : Z := 7 * 24 * 3600 * 1000.

(** A record falls in the 30-day window of [now] when its [solved_at]
    lies on one of the local calendar days from 29 days before today
    through today. *)
Definition in_window (tz_offset now : Z) (p : Analytics.problem) : bool :=
  match Analytics.solved_at p with
  | Some t =>
      Z.leb (toDateString tz_offset now - 29) (toDateString tz_offset t)
      && Z.leb (toDateString tz_offset t) (toDateString tz_offset now)
  | None => false
  end.

(** A record solved on one of the last [n] local calendar days: after
    the day [n] days before today, up to today. *)
Definition solved_within (tz_offset now : Z) (n : nat)
    (p : Analytics.problem) : bool :=
  match Analytics.solved_at p with
  | Some t =>
      Z.ltb (toDateString tz_offset now - Z.of_nat n)
            (toDateString tz_offset t)
      && Z.leb (toDateString tz_offset t) (toDateString tz_offset now)
  | None => false
  end.

(** A text is blank when it holds white space only. *)
Definition blank (s : jsstring) : bool := forallb is_white_space s.

(** A record satisfies the constraints of the [problems] table when its
    title, platform and topic are non-empty texts, its difficulty is Easy,
    Medium or Hard, its status is absent (the column then takes its
    default) or one of Todo, In Progress, Solved, Reviewed, and none of
    its optional columns is the empty text. *)
Definition insertable (p : object) : Prop :=
  (forall key, In key [js "title"; js "platform"; js "topic"] ->
     exists s, get p key = Str s /\ s <> [])
  /\ (exists d, get p (js "difficulty") = Str d
                /\ In d [js "Easy"; js "Medium"; js "Hard"])
  /\ (get p (js "status") = Undefined
      \/ exists st, get p (js "status") = Str st
                    /\ In st [js "Todo"; js "In Progress"; js "Solved";
                              js "Reviewed"])
  /\ (forall key,
        In key [js "problem_url"; js "solution_url"; js "notes";
                js "solved_at"] ->
        get p key <> Str []).

(** The carriage return, and a text with every newline preceded by a
    carriage return (Windows line endings). *)
Definition cr : N := 13.

Definition crlf (text : jsstring) : jsstring :=
  flat_map (fun c => if N.eqb c newline then [cr; newline] else [c]) text.

(** Two lines that differ at most by a carriage return at the end of the
    second. *)
Definition up_to_cr (l l' : jsstring) : Prop := l' = l \/ l' = l ++ [cr].

(** Example rows of the list page. *)
Definition list_row (i t tp : string) : ProblemsPage.problem :=
  {| ProblemsPage.id := js i; ProblemsPage.title := js t;
     ProblemsPage.platform := js "LeetCode";
     ProblemsPage.difficulty := js "Easy"; ProblemsPage.topic := js tp;
     ProblemsPage.status := js "Todo"; ProblemsPage.problem_url := None;
     ProblemsPage.solution_url := None; ProblemsPage.notes := None;
     ProblemsPage.solved_at := None;
     ProblemsPage.created_at := js "2025-08-16T10:00:00+00:00" |}.

Definition two_listed : list ProblemsPage.problem :=
  [list_row "a1" "Two Sum" "Arrays"; list_row "b2" "Invert Tree" "Trees"].

(** The number of records of a topic, and the count that an accumulator
    of the topic chart holds for a key (0 when it holds none). *)
Definition with_topic (t : jsstring) (problems : list Charts.problem) : nat :=
  List.length (filter (fun p => str_eqb (Charts.topic p) t) problems).

Fixpoint count_in (acc : TopicChart.counts) (key : jsstring) : nat :=
  match acc with
  | [] => 0
  | (k, n) :: rest => if str_eqb k key then n else count_in rest key
  end.

(** Instants of the examples: a day of the calendar is numbered from the
    epoch, 1 November 2025 being day 20393 and 17 August 2025 day 20317;
    [at_utc day h m] is the instant [h] hours and [m] minutes after UTC
    midnight of the day. *)
Definition at_utc (day h m : Z) : Z :=
  (day * 86400000 + h * 3600000 + m * 60000)%Z.

(** New York in the autumn of 2025: four hours behind UTC until 06:00 UTC
    of 2 November (02:00 local time, when the clocks go back one hour),
    five hours behind from then on.  Local midnight of 2 November is
    04:00 UTC and local midnight of 3 November is 05:00 UTC, twenty-five
    hours later. *)
Definition new_york : Zoned.zone :=
  {| Zoned.before := (-4 * 3600000)%Z;
     Zoned.change := at_utc 20394 6 0;
     Zoned.after := (-5 * 3600000)%Z |}.

(** Bogota: five hours behind UTC the whole year. *)
Definition bogota : Zoned.zone := Zoned.unchanging (-5 * 3600000)%Z.

Definition solved_at_instant (t : Z) : Dashboard.problem :=
  {| Dashboard.status := js "Solved"; Dashboard.solved_at := Some t |}.

(** Three records solved at 10:00 New York time of 3, 2 and 1 November
    2025, that is at 15:00, 15:00 and 14:00 UTC. *)
Definition three_days_new_york : list Dashboard.problem :=
  [solved_at_instant (at_utc 20395 15 0);
   solved_at_instant (at_utc 20394 15 0);
   solved_at_instant (at_utc 20393 14 0)].

(** A file whose first header is the one name [title, platform], written
    inside double quotes, followed by the headers [difficulty] and
    [topic], with one data row. *)
Definition quoted_header_line : jsstring :=
  [dquote] ++ js "title, platform" ++ [dquote] ++ js ",difficulty,topic".

Definition text_quoted_header : jsstring :=
  quoted_header_line ++ [newline] ++ js "x,y,Easy,Arrays".

(** A header row followed by lines of white space only; and a header row
    followed by a row with no title. *)
Definition text_header_and_blanks : jsstring :=
  js "title,platform,difficulty,topic" ++ [newline] ++ js "   "
  ++ [newline] ++ [newline].

Definition text_row_without_title : jsstring :=
  js "title,platform,difficulty,topic" ++ [newline]
  ++ js ",LeetCode,Easy,Arrays".

End Spec.
Import Spec.

(** * Properties *)

(** ** Strings and objects *)

Lemma str_eqb_eq (a b : jsstring) : str_eqb a b = true <-> a = b.
Proof.
  revert b; induction a as [|x a IH]; intros [|y b]; simpl;
    try (split; [discriminate | discriminate]); try tauto.
  rewrite andb_true_iff, N.eqb_eq, IH.
  split; [intros [-> ->]; reflexivity | intros [= -> ->]; tauto].
Qed.

Lemma str_eqb_refl (a : jsstring) : str_eqb a a = true.
Proof. now apply str_eqb_eq. Qed.

Lemma str_eqb_neq (a b : jsstring) : str_eqb a b = false <-> a <> b.
Proof.
  rewrite <- str_eqb_eq. destruct (str_eqb a b); split; congruence.
Qed.

Lemma includes_In (c : N) (s : jsstring) : includes c s = true <-> In c s.
Proof.
  unfold includes. rewrite existsb_exists. split.
  - intros (x & Hx & E). apply N.eqb_eq in E. now subst.
  - intros H. exists c. split; [assumption | apply N.eqb_refl].
Qed.

Lemma includes_cons (c x : N) (s : jsstring) :
  includes c (x :: s) = N.eqb c x || includes c s.
Proof. reflexivity. Qed.

Lemma includes_app (c : N) (a b : jsstring) :
  includes c (a ++ b) = includes c a || includes c b.
Proof. unfold includes. apply existsb_app. Qed.

Lemma array_includes_In (arr : list jsstring) (v : jsstring) :
  array_includes arr v = true <-> In v arr.
Proof.
  unfold array_includes. rewrite existsb_exists. split.
  - intros (x & Hx & E). apply str_eqb_eq in E. now subst.
  - intros H. exists v. split; [assumption | apply str_eqb_refl].
Qed.

Lemma get_set_same (o : object) (k : jsstring) (v : jsval) :
  get (set o k v) k = v.
Proof.
  induction o as [|[k' w] o IH]; simpl.
  - now rewrite str_eqb_refl.
  - destruct (str_eqb k' k) eqn:E; simpl; rewrite E; [reflexivity | exact IH].
Qed.

Lemma get_set_other (o : object) (k k' : jsstring) (v : jsval) :
  k <> k' -> get (set o k v) k' = get o k'.
Proof.
  intros Hk. induction o as [|[k0 w] o IH]; simpl.
  - apply str_eqb_neq in Hk. now rewrite Hk.
  - destruct (str_eqb k0 k) eqn:E; simpl.
    + apply str_eqb_eq in E. subst k0.
      apply str_eqb_neq in Hk. now rewrite Hk.
    + now rewrite IH.
Qed.

(** Induction on a list two elements at a time, as [parseCSVLine] consumes
    an escaped quote. *)
Lemma list_ind_pairs {A : Type} (P : list A -> Prop) :
  P [] ->
  (forall a l, P l -> (forall b l', l = b :: l' -> P l') -> P (a :: l)) ->
  forall l, P l.
Proof.
  intros Hnil Hcons l.
  assert (H : P l /\ (forall b l', l = b :: l' -> P l')).
  { induction l as [|a l [IH1 IH2]].
    - split; [exact Hnil | discriminate].
    - split.
      + apply Hcons; assumption.
      + intros b l' [= -> ->]. exact IH1. }
  apply H.
Qed.

(** ** [parseCSVLine] *)

Import ImportExport.

Lemma parse_loop_length (line : jsstring) :
  forall result current inQuotes,
    List.length (parse_loop line result current inQuotes)
    = (List.length result + S (commas_outside_quotes inQuotes line))%nat.
Proof.
  induction line as [|c rest IH1 IH2] using list_ind_pairs;
    intros result current inQuotes.
  - simpl. rewrite length_app. reflexivity.
  - simpl. destruct (N.eqb c dquote).
    + destruct rest as [|next rest'].
      * simpl. rewrite length_app. reflexivity.
      * destruct (inQuotes && N.eqb next dquote).
        -- apply (IH2 next rest' eq_refl).
        -- apply IH1.
    + destruct (N.eqb c comma && negb inQuotes).
      * rewrite IH1, length_app. simpl. lia.
      * apply IH1.
Qed.

Lemma parseCSVLine_length (line : jsstring) :
  List.length (parseCSVLine line) = S (commas_outside_quotes false line).
Proof. unfold parseCSVLine. now rewrite parse_loop_length. Qed.

Lemma import_row_cases (user_id : jsstring) (date_parse_ok : jsstring -> bool)
    (headers : list jsstring) (line : jsstring) :
  import_row user_id date_parse_ok headers line
  = let problem :=
      build_problem user_id date_parse_ok headers (parseCSVLine line) in
    if lacks_required problem then RowSkipped else RowPushed problem.
Proof. unfold import_row. now rewrite parseCSVLine_length. Qed.

(** C10.  [parseCSVLine] never returns an empty list: it returns exactly
    one more field than the line has commas outside quoted regions, the
    empty line giving the single empty field; so the import loop never
    takes the branch [values.length === 0]. *)
Theorem parseCSVLine_field_count (line : jsstring) :
  parseCSVLine line <> []
  /\ List.length (parseCSVLine line) = S (commas_outside_quotes false line)
  /\ parseCSVLine [] = [[]]
  /\ forall user_id date_parse_ok headers,
       import_row user_id date_parse_ok headers line <> RowEmpty.
Proof.
  pose proof (parseCSVLine_length line) as L.
  repeat split.
  - intros E. rewrite E in L. discriminate.
  - exact L.
  - intros user_id date_parse_ok headers. rewrite import_row_cases. simpl.
    destruct (lacks_required _); discriminate.
Qed.

(** ** [handleExport] *)

Lemma replace_quotes_double (s : jsstring) :
  replace_quotes [dquote; dquote] s = double_quotes s.
Proof.
  unfold replace_quotes.
  induction s as [|c s IH]; simpl; [reflexivity|].
  rewrite IH. destruct (N.eqb c dquote); reflexivity.
Qed.


(** ** The [forEach] over the headers *)

Section ImportFacts.

Variable date_parse_ok : jsstring -> bool.

Lemma assign_field_stored (problem : object) (header value : jsstring) :
  assign_field date_parse_ok problem header value
  = match stored date_parse_ok header value with
    | Some v => set problem header v
    | None => problem
    end.
Proof.
  unfold assign_field, stored.
  repeat match goal with
         | |- context [if ?c then _ else _] =>
             lazymatch c with
             | array_includes _ header => destruct c
             | str_eqb header _ => destruct c
             end
         end; reflexivity.
Qed.

Lemma stored_known (header value : jsstring) :
  stored date_parse_ok header value = None <-> ~ In header known_headers.
Proof.
  unfold stored.
  destruct (array_includes [js "title"; js "platform"; js "topic"] header) eqn:E1.
  { apply array_includes_In in E1. split; [discriminate|]. intros H. exfalso.
    apply H. destruct E1 as [<-|[<-|[<-|[]]]]; simpl; tauto. }
  destruct (str_eqb header (js "difficulty")) eqn:E2.
  { apply str_eqb_eq in E2. split; [discriminate|]. intros H. exfalso.
    apply H. subst header. simpl; tauto. }
  destruct (str_eqb header (js "status")) eqn:E3.
  { apply str_eqb_eq in E3. split; [discriminate|]. intros H. exfalso.
    apply H. subst header. simpl; tauto. }
  destruct (array_includes [js "problem_url"; js "solution_url"; js "notes"]
              header) eqn:E4.
  { apply array_includes_In in E4. split; [discriminate|]. intros H. exfalso.
    apply H. destruct E4 as [<-|[<-|[<-|[]]]]; simpl; tauto. }
  destruct (str_eqb header (js "solved_at")) eqn:E5.
  { apply str_eqb_eq in E5. split; [discriminate|]. intros H. exfalso.
    apply H. subst header. simpl; tauto. }
  split; [intros _|reflexivity].
  apply str_eqb_neq in E2, E3, E5.
  assert (N1 : ~ In header [js "title"; js "platform"; js "topic"]).
  { intros H. apply array_includes_In in H. congruence. }
  assert (N4 : ~ In header [js "problem_url"; js "solution_url"; js "notes"]).
  { intros H. apply array_includes_In in H. congruence. }
  simpl in *. intuition congruence.
Qed.

Lemma get_assign_other (problem : object) (header value key : jsstring) :
  header <> key ->
  get (assign_field date_parse_ok problem header value) key = get problem key.
Proof.
  intros Hk. rewrite assign_field_stored.
  destruct (stored date_parse_ok header value); [|reflexivity].
  now apply get_set_other.
Qed.

Lemma get_forEach_header (values : list jsstring) (key : jsstring) :
  forall headers index problem,
    get (forEach_header date_parse_ok headers index values problem) key
    = match last_index key headers with
      | Some i =>
          match stored date_parse_ok key (value_at values (index + i)) with
          | Some v => v
          | None => get problem key
          end
      | None => get problem key
      end.
Proof.
  induction headers as [|h rest IH]; intros index problem; simpl.
  - reflexivity.
  - rewrite IH. destruct (last_index key rest) as [i|].
    + rewrite <- plus_n_Sm. simpl.
      destruct (stored date_parse_ok key (value_at values (S (index + i))))
        as [v|] eqn:St; [reflexivity|].
      destruct (str_eqb h key) eqn:E.
      * apply str_eqb_eq in E. subst h. rewrite assign_field_stored.
        apply stored_known in St.
        destruct (stored date_parse_ok key (value_at values index)) eqn:St'.
        -- assert (St0 : stored date_parse_ok key (value_at values index) = None)
             by now apply stored_known.
           congruence.
        -- reflexivity.
      * apply str_eqb_neq in E. now apply get_assign_other.
    + destruct (str_eqb h key) eqn:E.
      * apply str_eqb_eq in E. subst h. rewrite Nat.add_0_r.
        rewrite assign_field_stored.
        destruct (stored date_parse_ok key (value_at values index));
          [apply get_set_same | reflexivity].
      * apply str_eqb_neq in E. now apply get_assign_other.
Qed.

Lemma get_build_problem (user_id : jsstring) (headers values : list jsstring)
    (key : jsstring) (i : nat) (v : jsval) :
  last_index key headers = Some i ->
  stored date_parse_ok key (value_at values i) = Some v ->
  get (build_problem user_id date_parse_ok headers values) key = v.
Proof.
  intros Hi Hs. unfold build_problem. rewrite get_forEach_header, Hi.
  simpl. now rewrite Hs.
Qed.

End ImportFacts.

(** C5, against the claim as stated: the parsed value is not used
    verbatim.  The row below has the title value space-A-space, and the
    record built from it has the title A. *)
Lemma import_title_not_verbatim :
  let headers := [js "title"; js "platform"; js "difficulty"; js "topic"] in
  let values := parseCSVLine (js " A ,LeetCode,Easy,Arrays") in
  let problem := build_problem (js "u1") (fun _ => true) headers values in
  nth_error values 0 = Some (js " A ")
  /\ get problem (js "title") = Str (js "A")
  /\ get problem (js "title") <> Str (js " A ").
Proof.
  vm_compute. repeat split. discriminate.
Qed.

(** C5, amended.  For a data row with parsed fields [values], let [value]
    be the field at the position of the last header named [key], trimmed
    of surrounding white space, or the empty string when the row has no
    field there.  Then the record built from the row holds under [key]:
    [value] itself for title, platform and topic (the empty string
    included); [value] for difficulty when it is Easy, Medium or Hard and
    Easy otherwise; [value] for status when it is Todo, In Progress,
    Solved or Reviewed and Todo otherwise; null for problem_url,
    solution_url and notes when [value] is empty and [value] otherwise;
    for solved_at, [value] when it is non-empty and parses as a date and
    null otherwise.  A header outside these nine leaves the record
    unchanged. *)
Theorem import_coercion (user_id : jsstring) (date_parse_ok : jsstring -> bool)
    (headers values : list jsstring) (key : jsstring) (i : nat) :
  last_index key headers = Some i ->
  let value := match nth_error values i with
               | Some v => trim v
               | None => []
               end in
  let problem := build_problem user_id date_parse_ok headers values in
  (In key [js "title"; js "platform"; js "topic"] ->
     get problem key = Str value)
  /\ (key = js "difficulty" ->
        (In value [js "Easy"; js "Medium"; js "Hard"] ->
           get problem key = Str value)
        /\ (~ In value [js "Easy"; js "Medium"; js "Hard"] ->
              get problem key = Str (js "Easy")))
  /\ (key = js "status" ->
        (In value [js "Todo"; js "In Progress"; js "Solved"; js "Reviewed"] ->
           get problem key = Str value)
        /\ (~ In value [js "Todo"; js "In Progress"; js "Solved"; js "Reviewed"] ->
              get problem key = Str (js "Todo")))
  /\ (In key [js "problem_url"; js "solution_url"; js "notes"] ->
        (value = [] -> get problem key = Null)
        /\ (value <> [] -> get problem key = Str value))
  /\ (key = js "solved_at" ->
        (value <> [] /\ date_parse_ok value = true ->
           get problem key = Str value)
        /\ (~ (value <> [] /\ date_parse_ok value = true) ->
              get problem key = Null))
  /\ (forall (o : object) (header v : jsstring),
        ~ In header known_headers ->
        assign_field date_parse_ok o header v = o).
Proof.
  intros Hi value problem.
  assert (G : forall v, stored date_parse_ok key value = Some v ->
                        get problem key = v).
  { intros v. apply get_build_problem with (i := i); assumption. }
  repeat apply conj.
  - intros [<-|[<-|[<-|[]]]]; apply G; reflexivity.
  - intros ->.
    assert (S : stored date_parse_ok (js "difficulty") value
                = Some (Str (if array_includes difficulties value
                             then value else js "Easy"))) by reflexivity.
    split; intros Hv; apply G; rewrite S.
    + apply (array_includes_In difficulties) in Hv. now rewrite Hv.
    + destruct (array_includes difficulties value) eqn:E; [|reflexivity].
      apply array_includes_In in E. contradiction.
  - intros ->.
    assert (S : stored date_parse_ok (js "status") value
                = Some (Str (if array_includes statuses value
                             then value else js "Todo"))) by reflexivity.
    split; intros Hv; apply G; rewrite S.
    + apply (array_includes_In statuses) in Hv. now rewrite Hv.
    + destruct (array_includes statuses value) eqn:E; [|reflexivity].
      apply array_includes_In in E. contradiction.
  - intros Hk.
    assert (S : stored date_parse_ok key value
                = Some (if truthy value then Str value else Null)).
    { destruct Hk as [<-|[<-|[<-|[]]]]; reflexivity. }
    split; intros Hv; apply G; rewrite S.
    + now rewrite Hv.
    + destruct value; [contradiction | reflexivity].
  - intros ->.
    assert (S : stored date_parse_ok (js "solved_at") value
                = Some (if truthy value && date_parse_ok value
                        then Str value else Null)) by reflexivity.
    split; intros Hv; apply G; rewrite S.
    + destruct Hv as [Hv ->]. destruct value; [contradiction|reflexivity].
    + destruct value as [|c value']; [reflexivity|]. simpl.
      destruct (date_parse_ok (c :: value')) eqn:E; [|reflexivity].
      exfalso. apply Hv. split; [discriminate | reflexivity].
  - intros o header v Hh. rewrite assign_field_stored.
    apply (stored_known date_parse_ok header v) in Hh. now rewrite Hh.
Qed.

(** C5, amended: an instance. *)
Lemma import_coercion_witness :
  let headers := [js "title"; js "platform"; js "difficulty"; js "topic"] in
  let values := parseCSVLine (js " A ,LeetCode,Easy,Arrays") in
  last_index (js "title") headers = Some 0%nat
  /\ get (build_problem (js "u1") (fun _ => true) headers values) (js "title")
     = Str (js "A").
Proof.
  split; [reflexivity|].
  refine (proj1 (import_coercion (js "u1") (fun _ => true)
                   [js "title"; js "platform"; js "difficulty"; js "topic"]
                   (parseCSVLine (js " A ,LeetCode,Easy,Arrays"))
                   (js "title") 0%nat eq_refl) _).
  simpl. tauto.
Defined.

(** ** The import loop and its outcome *)

Lemma messages_distinct (missing : list jsstring) :
  msg_too_short <> msg_missing_headers missing
  /\ msg_too_short <> msg_no_valid
  /\ msg_no_valid <> msg_missing_headers missing.
Proof.
  repeat split; intros E; apply (f_equal (hd 0%N)) in E; discriminate E.
Qed.

Lemma missingHeaders_spec (headers : list jsstring) (h : jsstring) :
  In h (missingHeaders headers)
  <-> In h requiredHeaders /\ ~ In h headers.
Proof.
  unfold missingHeaders. rewrite filter_In, negb_true_iff.
  rewrite <- array_includes_In with (arr := headers).
  destruct (array_includes headers h); intuition congruence.
Qed.

Section ImportLoop.

Variable user_id : jsstring.
Variable date_parse_ok : jsstring -> bool.


Lemma import_row_not_empty (headers : list jsstring) (line : jsstring) :
  import_row user_id date_parse_ok headers line <> RowEmpty.
Proof.
  rewrite import_row_cases. simpl.
  destruct (lacks_required _); discriminate.
Qed.

Lemma import_rows_problems (headers : list jsstring) :
  forall lines i,
    snd (import_rows user_id date_parse_ok headers i lines)
    = flat_map (fun line =>
                  match import_row user_id date_parse_ok headers line with
                  | RowPushed problem => [problem]
                  | _ => []
                  end) lines.
Proof.
  induction lines as [|line rest IH]; intros i; simpl; [reflexivity|].
  specialize (IH (S i)).
  destruct (ImportExport.import_rows user_id date_parse_ok headers (S i) rest)
    as [warnings problems].
  simpl in IH. subst problems.
  destruct (ImportExport.import_row user_id date_parse_ok headers line);
    reflexivity.
Qed.

Lemma import_rows_warnings (headers : list jsstring) :
  forall lines i,
    List.length (fst (import_rows user_id date_parse_ok headers i lines))
    = List.length (filter (skippedb user_id date_parse_ok headers) lines).
Proof.
  unfold skippedb.
  induction lines as [|line rest IH]; intros i; simpl; [reflexivity|].
  specialize (IH (S i)).
  destruct (ImportExport.import_rows user_id date_parse_ok headers (S i) rest)
    as [warnings problems].
  simpl in IH.
  destruct (ImportExport.import_row user_id date_parse_ok headers line);
    simpl; congruence.
Qed.

Lemma no_problems_iff_all_skipped (headers lines : list jsstring) :
  snd (import_rows user_id date_parse_ok headers 1 lines) = []
  <-> Forall (skipped user_id date_parse_ok headers) lines.
Proof.
  rewrite import_rows_problems. unfold skipped.
  induction lines as [|line rest IH]; simpl.
  - split; [constructor | reflexivity].
  - pose proof (import_row_not_empty headers line) as NE.
    destruct (ImportExport.import_row user_id date_parse_ok headers line)
      eqn:E; simpl.
    + contradiction.
    + rewrite IH. split.
      * intros H. constructor; assumption.
      * intros H. now inversion H.
    + split; [discriminate|]. intros H. inversion H as [|? ? Hl Hr].
      congruence.
Qed.

Lemma rows_partition (headers lines : list jsstring) :
  (List.length (snd (import_rows user_id date_parse_ok headers 1 lines))
   + List.length (filter (skippedb user_id date_parse_ok headers) lines)
   = List.length lines)%nat.
Proof.
  rewrite import_rows_problems. unfold skippedb.
  induction lines as [|line rest IH]; simpl; [reflexivity|].
  pose proof (import_row_not_empty headers line) as NE.
  destruct (ImportExport.import_row user_id date_parse_ok headers line);
    simpl; [contradiction | lia | lia].
Qed.

(** [handleImport] by cases. *)
Lemma handleImport_cases (text : jsstring) :
  let lines := nonblank_lines text in
  let missing := missingHeaders (header_names text) in
  let run := import_rows user_id date_parse_ok (header_names text) 1
               (data_lines text) in
  handleImport user_id date_parse_ok text
  = if Nat.ltb (List.length lines) 2 then ([], inl msg_too_short)
    else match missing with
         | _ :: _ => ([], inl (msg_missing_headers missing))
         | [] => (fst run, match snd run with
                           | [] => inl msg_no_valid
                           | _ :: _ => inr (snd run)
                           end)
         end.
Proof.
  unfold ImportExport.handleImport, header_names, data_lines.
  cbv zeta.
  destruct (Nat.ltb _ 2); [reflexivity|].
  destruct (missingHeaders _) as [|m ms]; [|reflexivity].
  simpl.
  destruct (ImportExport.import_rows _ _ _ _ _) as [warnings problems].
  destruct problems; reflexivity.
Qed.

End ImportLoop.

(** The outcome of [handleImport] by cases, on the lines and header
    names that the handler itself derives.  With [lines] the non-blank
    lines of the text, the import fails
    exactly in three cases: with the message of [MalformedInput] when
    fewer than two lines remain; with the message of [MissingColumns],
    which lists exactly the required headers absent from the first line,
    when one of title, platform, difficulty, topic is absent; with the
    message of [NoValidRows] when every data line is skipped by per-row
    validation.  In every other case it succeeds with the valid records.
    The last conjunct is the spec's example: a text with headers title and
    platform only fails naming difficulty and topic. *)
Theorem import_failure_kinds (user_id : jsstring)
    (date_parse_ok : jsstring -> bool) (text : jsstring) :
  let lines := nonblank_lines text in
  let headers := header_names text in
  let missing := missingHeaders headers in
  let all_skipped :=
    Forall (skipped user_id date_parse_ok headers) (data_lines text) in
  let records := valid_records user_id date_parse_ok text in
  let outcome := snd (handleImport user_id date_parse_ok text) in
  (outcome = inl (failure_message MalformedInput)
   <-> (List.length lines < 2)%nat)
  /\ (outcome = inl (failure_message (MissingColumns missing))
      <-> (2 <= List.length lines)%nat /\ missing <> [])
  /\ (outcome = inl (failure_message NoValidRows)
      <-> (2 <= List.length lines)%nat /\ missing = [] /\ all_skipped)
  /\ (outcome = inr records /\ records <> []
      <-> (2 <= List.length lines)%nat /\ missing = [] /\ ~ all_skipped)
  /\ ((exists message, outcome = inl message)
      <-> (List.length lines < 2)%nat \/ missing <> [] \/ all_skipped)
  /\ (forall h,
        In h missing
        <-> In h [js "title"; js "platform"; js "difficulty"; js "topic"]
            /\ ~ In h headers)
  /\ snd (handleImport user_id date_parse_ok
            (js "title,platform" ++ [newline] ++ js "A,B"))
     = inl (js "Missing required headers: difficulty, topic").
Proof.
  intros lines headers missing all_skipped records outcome.
  assert (Hrec : records
                 = snd (import_rows user_id date_parse_ok headers 1
                          (data_lines text))).
  { unfold records, valid_records. now rewrite import_rows_problems. }
  assert (Hall : records = [] <-> all_skipped).
  { rewrite Hrec. apply no_problems_iff_all_skipped. }
  assert (Hout : outcome
    = if Nat.ltb (List.length lines) 2 then inl msg_too_short
      else match missing with
           | _ :: _ => inl (msg_missing_headers missing)
           | [] => match records with
                   | [] => inl msg_no_valid
                   | _ :: _ => inr records
                   end
           end).
  { unfold outcome. rewrite handleImport_cases. cbv zeta.
    fold lines headers missing. rewrite Hrec.
    destruct (Nat.ltb _ 2); [reflexivity|].
    destruct missing; reflexivity. }
  assert (Hmiss : forall h,
            In h missing
            <-> In h [js "title"; js "platform"; js "difficulty"; js "topic"]
                /\ ~ In h headers).
  { intros h. apply missingHeaders_spec. }
  clearbody lines headers missing all_skipped records outcome.
  destruct (messages_distinct missing) as (D1 & D2 & D3).
  split; [|split; [|split; [|split; [|split; [|split]]]]].
  7: reflexivity.
  6: exact Hmiss.
  all: clear Hmiss; simpl failure_message; rewrite Hout; clear Hout.
  all: destruct (Nat.ltb_spec (List.length lines) 2) as [Hlt|Hge].
  (* fewer than two lines *)
  1: tauto.
  2: split; [intros [= E]; congruence | lia].
  3: split; [intros [= E]; congruence | lia].
  4: split; [intros [E _]; discriminate | lia].
  5: split; [tauto | intros _; eexists; reflexivity].
  (* two lines or more: no header missing and no valid record, no header
     missing and some valid record, some header missing *)
  all: destruct missing as [|m ms];
    [destruct records as [|r rs];
     [assert (Ha : all_skipped) by (now apply Hall)
     |assert (Hn : ~ all_skipped)
        by (intros Ha; apply Hall in Ha; discriminate)]|].
  - split; [intros [= E]; congruence | lia].
  - split; [discriminate | lia].
  - split; [intros [= E]; congruence | lia].
  - split; [intros [= E]; congruence | intros [_ H]; congruence].
  - split; [discriminate | intros [_ H]; congruence].
  - split; [intros _; split; [lia | discriminate] | reflexivity].
  - split; [intros _; repeat split; [lia | assumption] | reflexivity].
  - split; [discriminate | intros (_ & _ & H); contradiction].
  - split; [intros [= E]; congruence | intros (_ & H & _); discriminate].
  - split; [intros [E _]; discriminate | intros (_ & _ & H); contradiction].
  - split; [intros _; repeat split; [lia | exact Hn]
           | intros _; split; [reflexivity | discriminate]].
  - split; [intros [E _]; discriminate | intros (_ & H & _); discriminate].
  - split; [intros _; right; right; assumption
           | intros _; eexists; reflexivity].
  - split; [intros [message E]; discriminate
           | intros [H|[H|H]]; [lia | congruence | contradiction]].
  - split; [intros _; right; left; discriminate
           | intros _; eexists; reflexivity].
Qed.

(** C4.  Four files.  A header row followed by blank lines only is
    rejected as too short; the file [title,platform] / [A,B] is rejected
    with the message naming [difficulty] and [topic]; a header row
    followed by a row with an empty title is rejected for having no
    valid row.  In the fourth file the first header is the single name
    [title, platform] inside double quotes: read as the data rows are
    read, the header line has the three fields [title, platform],
    [difficulty] and [topic], none of which is [title] or [platform].
    The handler splits it at the comma inside the quotes and removes the
    quotes, finds the four required names, and the import succeeds with
    the record of title [x] and platform [y]. *)
Theorem quoted_header_is_imported (user_id : jsstring)
    (date_parse_ok : jsstring -> bool) :
  let import := fun text => snd (handleImport user_id date_parse_ok text) in
  import text_header_and_blanks = inl (failure_message MalformedInput)
  /\ import (js "title,platform" ++ [newline] ++ js "A,B")
     = inl (js "Missing required headers: difficulty, topic")
  /\ import text_row_without_title = inl (failure_message NoValidRows)
  /\ parseCSVLine quoted_header_line
     = [js "title, platform"; js "difficulty"; js "topic"]
  /\ ~ In (js "title") (parseCSVLine quoted_header_line)
  /\ ~ In (js "platform") (parseCSVLine quoted_header_line)
  /\ parse_headers quoted_header_line
     = [js "title"; js "platform"; js "difficulty"; js "topic"]
  /\ missingHeaders (parse_headers quoted_header_line) = []
  /\ import text_quoted_header
     = inr [[(js "user_id", Str user_id); (js "title", Str (js "x"));
             (js "platform", Str (js "y"));
             (js "difficulty", Str (js "Easy"));
             (js "topic", Str (js "Arrays"))]].
Proof.
  vm_compute. repeat split.
  - intros [H|[H|[H|[]]]]; discriminate.
  - intros [H|[H|[H|[]]]]; discriminate.
Qed.

(** C6, against the claim as stated: the outcome of an import holds no
    count of skipped rows.  The two example texts have the same outcome,
    yet no row of the first is skipped and one row of the second is; so
    no function recovers the number of skipped rows from the outcome. *)
Lemma import_outcome_has_no_skip_count :
  ~ exists count_of : jsstring + list object -> nat,
      forall text,
        count_of (snd (handleImport (js "u1") (fun _ => true) text))
        = skipped_rows (js "u1") (fun _ => true) text.
Proof.
  intros [count_of H].
  pose proof (H text_one_valid) as H1.
  pose proof (H text_invalid_then_valid) as H2.
  assert (E : snd (handleImport (js "u1") (fun _ => true) text_one_valid)
              = snd (handleImport (js "u1") (fun _ => true)
                       text_invalid_then_valid))
    by (vm_compute; reflexivity).
  rewrite E in H1. rewrite H1 in H2. vm_compute in H2. discriminate.
Qed.

(** C6, amended.  A successful import yields the records built from the
    valid data rows, in order, and no count of skipped rows: a skipped row
    only leaves one console warning, so that the warnings are as many as
    the skipped rows and every data row is either a record or a warning.
    A row is skipped exactly when its title, platform, difficulty or topic
    is empty (or absent) after coercion.  On the text with one row of
    empty title and one valid row, the import succeeds with the one valid
    record and warns once, about row 2. *)
Theorem import_skips_rows (user_id : jsstring)
    (date_parse_ok : jsstring -> bool) (text : jsstring)
    (problems : list object) :
  snd (handleImport user_id date_parse_ok text) = inr problems ->
  problems = valid_records user_id date_parse_ok text
  /\ List.length (fst (handleImport user_id date_parse_ok text))
     = skipped_rows user_id date_parse_ok text
  /\ (List.length problems + skipped_rows user_id date_parse_ok text
      = List.length (data_lines text))%nat
  /\ (forall headers line,
        let problem :=
          build_problem user_id date_parse_ok headers (parseCSVLine line) in
        skipped user_id date_parse_ok headers line
        <-> falsy (get problem (js "title")) = true
            \/ falsy (get problem (js "platform")) = true
            \/ falsy (get problem (js "difficulty")) = true
            \/ falsy (get problem (js "topic")) = true)
  /\ handleImport user_id date_parse_ok text_invalid_then_valid
     = ([2%nat],
        inr [[(js "user_id", Str user_id); (js "title", Str (js "Two Sum"));
              (js "platform", Str (js "LeetCode"));
              (js "difficulty", Str (js "Easy"));
              (js "topic", Str (js "Arrays"))]]).
Proof.
  intros Hok.
  assert (Hcases := handleImport_cases user_id date_parse_ok text).
  cbv zeta in Hcases.
  assert (Hrec : valid_records user_id date_parse_ok text
                 = snd (import_rows user_id date_parse_ok (header_names text) 1
                          (data_lines text))).
  { unfold valid_records. now rewrite import_rows_problems. }
  assert (Hrun : fst (handleImport user_id date_parse_ok text)
                 = fst (import_rows user_id date_parse_ok (header_names text) 1
                          (data_lines text))
                 /\ problems = valid_records user_id date_parse_ok text).
  { rewrite Hcases in Hok |- *. rewrite Hrec.
    destruct (Nat.ltb _ 2); [discriminate|].
    destruct (missingHeaders _); [|discriminate].
    simpl in Hok |- *.
    destruct (snd (import_rows _ _ _ _ _)); [discriminate|].
    injection Hok as <-. split; reflexivity. }
  destruct Hrun as [Hfst Hpr].
  split; [exact Hpr|]. split; [|split; [|split]].
  - rewrite Hfst. apply import_rows_warnings.
  - rewrite Hpr, Hrec. apply rows_partition.
  - intros headers line problem. unfold skipped.
    rewrite import_row_cases. fold problem. cbv zeta.
    unfold lacks_required.
    destruct (falsy (get problem (js "title")));
      destruct (falsy (get problem (js "platform")));
      destruct (falsy (get problem (js "difficulty")));
      destruct (falsy (get problem (js "topic"))); simpl;
      intuition discriminate.
  - reflexivity.
Qed.

(** C6, amended: an instance. *)
Lemma import_skips_rows_witness :
  snd (handleImport (js "u1") (fun _ => true) text_invalid_then_valid)
  = inr [[(js "user_id", Str (js "u1")); (js "title", Str (js "Two Sum"));
          (js "platform", Str (js "LeetCode"));
          (js "difficulty", Str (js "Easy"));
          (js "topic", Str (js "Arrays"))]]
  /\ List.length
       (fst (handleImport (js "u1") (fun _ => true) text_invalid_then_valid))
     = skipped_rows (js "u1") (fun _ => true) text_invalid_then_valid.
Proof.
  split; [reflexivity|].
  exact (proj1 (proj2 (import_skips_rows (js "u1") (fun _ => true)
                         text_invalid_then_valid _ eq_refl))).
Defined.

(** C9.  The header line is split at every comma, inside quotes too, and
    every double quote is removed from each name.  For a first header
    [last, first] written inside quotes, [parse_headers] yields the two
    names [last] and [first] where the quote-aware splitter used for the
    data rows yields one field; a quote inside a name is dropped; and the
    file below, whose data row matches its header line field for field,
    is rejected for having no valid row. *)
Theorem header_split_ignores_quotes :
  let header_line :=
    [dquote] ++ js "last, first" ++ [dquote]
    ++ js ",title,platform,difficulty,topic" in
  let data_line :=
    [dquote] ++ js "Doe, J" ++ [dquote] ++ js ",Two Sum,LeetCode,Easy,Arrays" in
  parse_headers header_line
  = [js "last"; js "first"; js "title"; js "platform"; js "difficulty";
     js "topic"]
  /\ parseCSVLine header_line
     = [js "last, first"; js "title"; js "platform"; js "difficulty";
        js "topic"]
  /\ parse_headers (js "ti" ++ [dquote] ++ js "tle") = [js "title"]
  /\ parseCSVLine data_line
     = [js "Doe, J"; js "Two Sum"; js "LeetCode"; js "Easy"; js "Arrays"]
  /\ snd (handleImport (js "u1") (fun _ => true)
            (header_line ++ [newline] ++ data_line))
     = inl msg_no_valid.
Proof.
  vm_compute. repeat split.
Qed.

(** ** Export followed by [parseCSVLine] *)

Lemma parse_loop_bare (s tail : jsstring) :
  forall result current,
    includes dquote s = false ->
    includes comma s = false ->
    parse_loop (s ++ tail) result current false
    = parse_loop tail result (current ++ s) false.
Proof.
  induction s as [|c s IH]; intros result current Hq Hc; simpl.
  - now rewrite app_nil_r.
  - rewrite includes_cons in Hq, Hc.
    apply orb_false_iff in Hq as [Hq1 Hq2].
    apply orb_false_iff in Hc as [Hc1 Hc2].
    rewrite N.eqb_sym in Hq1. rewrite N.eqb_sym in Hc1.
    rewrite Hq1, Hc1. simpl.
    rewrite IH by assumption.
    now rewrite <- app_assoc.
Qed.

Lemma parse_loop_in_quotes (s tail : jsstring) :
  hd_error tail <> Some dquote ->
  forall result current,
    parse_loop (double_quotes s ++ dquote :: tail) result current true
    = parse_loop tail result (current ++ s) false.
Proof.
  intros Htail. induction s as [|c s IH]; intros result current.
  - rewrite app_nil_r. simpl.
    destruct tail as [|next rest]; [reflexivity|].
    destruct (N.eqb next dquote) eqn:E; [|reflexivity].
    apply N.eqb_eq in E. subst next. now elim Htail.
  - simpl double_quotes. destruct (N.eqb c dquote) eqn:E.
    + apply N.eqb_eq in E. subst c. simpl.
      rewrite IH. now rewrite <- app_assoc.
    + simpl. rewrite E, andb_false_r.
      rewrite IH. now rewrite <- app_assoc.
Qed.

Lemma parse_loop_field (v : jsval) (tail : jsstring) :
  hd_error tail <> Some dquote ->
  forall result current,
    parse_loop (export_field v ++ tail) result current false
    = parse_loop tail result (current ++ content v) false.
Proof.
  intros Htail result current.
  destruct v as [| |s]; simpl; try now rewrite app_nil_r.
  destruct (includes comma s || includes dquote s || includes newline s) eqn:E.
  - rewrite replace_quotes_double. simpl.
    rewrite <- app_assoc. simpl.
    destruct (double_quotes s ++ dquote :: tail) as [|next rest] eqn:El.
    + now destruct (double_quotes s).
    + rewrite <- El. now apply parse_loop_in_quotes.
  - apply orb_false_iff in E as [E _]. apply orb_false_iff in E as [Ec Eq].
    now apply parse_loop_bare.
Qed.

Lemma parse_loop_comma (rest : jsstring) (result : list jsstring)
    (current : jsstring) :
  parse_loop (comma :: rest) result current false
  = parse_loop rest (result ++ [current]) [] false.
Proof. reflexivity. Qed.

Lemma parse_loop_row (v : jsval) (vs : list jsval) :
  forall result,
    parse_loop (join [comma] (List.map export_field (v :: vs))) result [] false
    = result ++ List.map content (v :: vs).
Proof.
  revert v. induction vs as [|v' vs IH]; intros v result.
  - simpl. rewrite <- (app_nil_r (export_field v)).
    rewrite parse_loop_field by discriminate. reflexivity.
  - change (join [comma] (List.map export_field (v :: v' :: vs)))
      with (export_field v
            ++ comma :: join [comma] (List.map export_field (v' :: vs))).
    rewrite parse_loop_field by (simpl; discriminate).
    rewrite parse_loop_comma, IH, <- app_assoc. reflexivity.
Qed.

(** [parseCSVLine] recovers every column of an exported row. *)
Lemma parseCSVLine_export_row (problem : object) :
  parseCSVLine (export_row problem)
  = List.map (fun header => content (get problem header)) export_headers.
Proof.
  unfold parseCSVLine, export_row.
  rewrite <- (map_map (get problem) export_field).
  unfold export_headers at 1. simpl List.map at 2.
  rewrite parse_loop_row. simpl. reflexivity.
Qed.

(** ** Lines of an exported text *)

Lemma split_without_sep (sep : N) (s : jsstring) :
  includes sep s = false -> split sep s = [s].
Proof.
  induction s as [|c s IH]; intros H; [reflexivity|].
  rewrite includes_cons in H. apply orb_false_iff in H as [H1 H2].
  simpl. rewrite N.eqb_sym, H1, IH by assumption. reflexivity.
Qed.

Lemma split_at_sep (sep : N) (a b : jsstring) :
  includes sep a = false ->
  split sep (a ++ sep :: b) = a :: split sep b.
Proof.
  induction a as [|c a IH]; intros H; simpl.
  - now rewrite N.eqb_refl.
  - rewrite includes_cons in H. apply orb_false_iff in H as [H1 H2].
    rewrite N.eqb_sym, H1, IH by assumption. reflexivity.
Qed.

Lemma includes_double_quotes (c : N) (s : jsstring) :
  N.eqb c dquote = false ->
  includes c (double_quotes s) = includes c s.
Proof.
  intros Hc. induction s as [|x s IH]; [reflexivity|].
  simpl double_quotes. destruct (N.eqb x dquote) eqn:E.
  - apply N.eqb_eq in E. subst x.
    rewrite !includes_cons, IH, Hc. reflexivity.
  - rewrite !includes_cons, IH. reflexivity.
Qed.

Lemma includes_newline_export_field (v : jsval) :
  includes newline (export_field v) = includes newline (content v).
Proof.
  destruct v as [| |s]; simpl; try reflexivity.
  destruct (includes comma s || includes dquote s || includes newline s);
    [|reflexivity].
  rewrite replace_quotes_double.
  change (dquote :: double_quotes s ++ [dquote])
    with ([dquote] ++ double_quotes s ++ [dquote]).
  rewrite !includes_app, includes_double_quotes by reflexivity.
  change (includes newline [dquote]) with false.
  now rewrite orb_false_r.
Qed.

Lemma join_cons_cons (sep a b : jsstring) (l : list jsstring) :
  join sep (a :: b :: l) = a ++ sep ++ join sep (b :: l).
Proof. reflexivity. Qed.

Lemma includes_join (c : N) (sep : jsstring) (l : list jsstring) :
  includes c sep = false ->
  (forall f, In f l -> includes c f = false) ->
  includes c (join sep l) = false.
Proof.
  intros Hsep. induction l as [|a l IH]; intros H; [reflexivity|].
  destruct l as [|b l].
  - apply H. now left.
  - rewrite join_cons_cons, !includes_app, Hsep, IH.
    + rewrite (H a) by now left. reflexivity.
    + intros f Hf. apply H. now right.
Qed.

Lemma trim_start_keeps (c : N) (s : jsstring) :
  is_white_space c = false -> In c s -> In c (trim_start s).
Proof.
  intros Hc. induction s as [|x s IH]; intros H; [contradiction|].
  simpl. destruct (is_white_space x) eqn:E; [|exact H].
  destruct H as [->|H]; [congruence | now apply IH].
Qed.

Lemma trim_not_blank (c : N) (s : jsstring) :
  is_white_space c = false -> In c s -> truthy (trim s) = true.
Proof.
  intros Hc H. unfold trim.
  assert (In c (rev (trim_start (rev (trim_start s))))) as Hin.
  { apply in_rev. rewrite rev_involutive.
    apply trim_start_keeps; [assumption|].
    apply -> in_rev. now apply trim_start_keeps. }
  destruct (rev _); [contradiction | reflexivity].
Qed.

Lemma export_row_not_blank (problem : object) :
  truthy (trim (export_row problem)) = true.
Proof.
  apply trim_not_blank with (c := comma); [reflexivity|].
  unfold export_row, export_headers. simpl List.map.
  rewrite join_cons_cons. apply in_or_app. right. now left.
Qed.

Lemma export_row_one_line (problem : object) :
  (forall header, In header export_headers ->
                  includes newline (content (get problem header)) = false) ->
  includes newline (export_row problem) = false.
Proof.
  intros H. unfold export_row. apply includes_join; [reflexivity|].
  intros f Hf. apply in_map_iff in Hf as (header & <- & Hh).
  rewrite includes_newline_export_field. now apply H.
Qed.

(** The import of the export of one record whose columns hold no newline:
    the text has two lines, the header line names the ten columns, and the
    data row gives back the ten column values. *)
Lemma import_of_export (user_id : jsstring) (date_parse_ok : jsstring -> bool)
    (r : object) :
  (forall header, In header export_headers ->
                  includes newline (content (get r header)) = false) ->
  let problem :=
    build_problem user_id date_parse_ok export_headers
      (List.map (fun header => content (get r header)) export_headers) in
  handleImport user_id date_parse_ok (handleExport [r])
  = if lacks_required problem then ([2%nat], inl msg_no_valid)
    else ([], inr [problem]).
Proof.
  intros Hnl problem.
  assert (Hlines : nonblank_lines (handleExport [r])
                   = [join [comma] export_headers; export_row r]).
  { unfold nonblank_lines.
    change (handleExport [r])
      with (join [comma] export_headers ++ newline :: export_row r).
    rewrite split_at_sep by reflexivity.
    rewrite split_without_sep by now apply export_row_one_line.
    simpl filter.
    change (truthy (trim (join [comma] export_headers))) with true.
    cbv iota. now rewrite export_row_not_blank. }
  rewrite handleImport_cases. cbv zeta.
  unfold header_names, data_lines. rewrite Hlines.
  change (parse_headers (hd [] [join [comma] export_headers; export_row r]))
    with export_headers.
  change (missingHeaders export_headers) with (@nil jsstring).
  change (Nat.ltb (List.length [join [comma] export_headers; export_row r]) 2)
    with false.
  cbv iota. simpl tl.
  unfold import_rows. rewrite import_row_cases, parseCSVLine_export_row.
  fold problem. cbv zeta.
  destruct (lacks_required problem); reflexivity.
Qed.

(** ** Export, then import *)

Lemma plain_one_line (s : jsstring) :
  plain s = true -> includes newline s = false.
Proof.
  unfold plain. rewrite negb_true_iff, !orb_false_iff. tauto.
Qed.

Lemma tidy_trim (s : jsstring) :
  tidy s = true -> trim s = s /\ truthy s = true.
Proof.
  unfold tidy. rewrite andb_true_iff, str_eqb_eq. tauto.
Qed.

(** What the import stores under an exported column. *)
Lemma get_reimported (user_id : jsstring) (date_parse_ok : jsstring -> bool)
    (r : object) (key : jsstring) (i : nat) (v : jsval) :
  last_index key export_headers = Some i ->
  nth_error export_headers i = Some key ->
  stored date_parse_ok key (trim (content (get r key))) = Some v ->
  get (build_problem user_id date_parse_ok export_headers
         (List.map (fun header => content (get r header)) export_headers)) key
  = v.
Proof.
  intros Hi Hn Hs. apply get_build_problem with (i := i); [exact Hi|].
  unfold value_at. rewrite nth_error_map, Hn. exact Hs.
Qed.

(** C1, against the claim as stated: a title with a space in front holds
    no comma, quote or newline, and neither does any other text column of
    the row, yet the record imported from the export of the row has
    another title. *)
Lemma roundtrip_loses_leading_space :
  forallb (fun key => plain (content (get row_leading_space key)))
          text_columns = true
  /\ exists problem,
       handleImport (js "u1") (fun _ => true) (handleExport [row_leading_space])
       = ([], inr [problem])
       /\ get row_leading_space (js "title") = Str (js " Two Sum")
       /\ get problem (js "title") = Str (js "Two Sum")
       /\ get problem (js "title") <> get row_leading_space (js "title").
Proof.
  split; [reflexivity|].
  eexists. split; [vm_compute; reflexivity|].
  split; [reflexivity|]. split; [reflexivity|].
  vm_compute. discriminate.
Qed.

(** C1, amended.  Let [r] be a record whose title, platform and topic are
    plain and tidy texts, whose difficulty is Easy, Medium or Hard, whose
    status is Todo, In Progress, Solved or Reviewed, whose problem_url,
    solution_url and notes are each null or a plain and tidy text, and
    whose two timestamps hold no newline.  Then importing the export of
    the one-element list [r] succeeds without a warning and yields exactly
    one record, equal to [r] on each of the eight text columns. *)
Theorem export_import_roundtrip (user_id : jsstring)
    (date_parse_ok : jsstring -> bool) (r : object)
    (title platform topic difficulty status : jsstring) :
  get r (js "title") = Str title ->
  get r (js "platform") = Str platform ->
  get r (js "topic") = Str topic ->
  get r (js "difficulty") = Str difficulty ->
  get r (js "status") = Str status ->
  plain title = true -> tidy title = true ->
  plain platform = true -> tidy platform = true ->
  plain topic = true -> tidy topic = true ->
  In difficulty [js "Easy"; js "Medium"; js "Hard"] ->
  In status [js "Todo"; js "In Progress"; js "Solved"; js "Reviewed"] ->
  (forall key, In key [js "problem_url"; js "solution_url"; js "notes"] ->
     get r key = Null
     \/ exists s, get r key = Str s /\ plain s = true /\ tidy s = true) ->
  (forall key, In key [js "solved_at"; js "created_at"] ->
     includes newline (content (get r key)) = false) ->
  exists problem,
    handleImport user_id date_parse_ok (handleExport [r]) = ([], inr [problem])
    /\ forall key, In key text_columns -> get problem key = get r key.
Proof.
  intros Ht Hp Htp Hd Hs Pt Tt Pp Tp Ptp Ttp Dd Ds Hopt Hstamp.
  apply tidy_trim in Tt as [Tt Nt], Tp as [Tp Np], Ttp as [Ttp Ntp].
  assert (Td : trim difficulty = difficulty /\ truthy difficulty = true
               /\ includes newline difficulty = false).
  { destruct Dd as [<-|[<-|[<-|[]]]]; repeat split. }
  assert (Ts : trim status = status /\ includes newline status = false).
  { destruct Ds as [<-|[<-|[<-|[<-|[]]]]]; repeat split. }
  destruct Td as (Td & Nd & Ld). destruct Ts as (Ts & Ls).
  set (problem :=
         build_problem user_id date_parse_ok export_headers
           (List.map (fun header => content (get r header)) export_headers)).
  assert (G : forall key i v,
             last_index key export_headers = Some i ->
             nth_error export_headers i = Some key ->
             stored date_parse_ok key (trim (content (get r key))) = Some v ->
             get problem key = v).
  { intros key i v. apply get_reimported. }
  assert (Gt : get problem (js "title") = Str title).
  { apply (G _ 0%nat); try reflexivity. rewrite Ht. simpl content.
    rewrite Tt. reflexivity. }
  assert (Gp : get problem (js "platform") = Str platform).
  { apply (G _ 1%nat); try reflexivity. rewrite Hp. simpl content.
    rewrite Tp. reflexivity. }
  assert (Gd : get problem (js "difficulty") = Str difficulty).
  { apply (G _ 2%nat); try reflexivity. rewrite Hd. simpl content.
    rewrite Td.
    change (stored date_parse_ok (js "difficulty") difficulty)
      with (Some (Str (if array_includes difficulties difficulty
                       then difficulty else js "Easy"))).
    apply (array_includes_In difficulties) in Dd. now rewrite Dd. }
  assert (Gtp : get problem (js "topic") = Str topic).
  { apply (G _ 3%nat); try reflexivity. rewrite Htp. simpl content.
    rewrite Ttp. reflexivity. }
  assert (Gs : get problem (js "status") = Str status).
  { apply (G _ 4%nat); try reflexivity. rewrite Hs. simpl content.
    rewrite Ts.
    change (stored date_parse_ok (js "status") status)
      with (Some (Str (if array_includes statuses status
                       then status else js "Todo"))).
    apply (array_includes_In statuses) in Ds. now rewrite Ds. }
  assert (Go : forall key i,
             In key [js "problem_url"; js "solution_url"; js "notes"] ->
             last_index key export_headers = Some i ->
             nth_error export_headers i = Some key ->
             get problem key = get r key).
  { intros key i Hk Hi Hn. apply (G key i); [exact Hi | exact Hn |].
    assert (S : forall value,
               stored date_parse_ok key value
               = Some (if truthy value then Str value else Null)).
    { intros value. destruct Hk as [<-|[<-|[<-|[]]]]; reflexivity. }
    rewrite S. destruct (Hopt key Hk) as [E|(s & E & Ps & Ts')].
    - rewrite E. reflexivity.
    - apply tidy_trim in Ts' as [Ts' Ns]. rewrite E. simpl content.
      rewrite Ts', Ns. reflexivity. }
  exists problem. split.
  - rewrite import_of_export.
    + fold problem. cbv zeta. unfold lacks_required.
      rewrite Gt, Gp, Gd, Gtp. simpl falsy.
      rewrite Nt, Np, Nd, Ntp. reflexivity.
    + intros header Hh. unfold export_headers in Hh. simpl in Hh.
      destruct Hh as [<-|[<-|[<-|[<-|[<-|[<-|[<-|[<-|[<-|[<-|[]]]]]]]]]]].
      * rewrite Ht. now apply plain_one_line.
      * rewrite Hp. now apply plain_one_line.
      * rewrite Hd. exact Ld.
      * rewrite Htp. now apply plain_one_line.
      * rewrite Hs. exact Ls.
      * destruct (Hopt (js "problem_url")) as [E|(s & E & Ps & _)];
          [simpl; tauto | rewrite E; reflexivity
          | rewrite E; now apply plain_one_line].
      * destruct (Hopt (js "solution_url")) as [E|(s & E & Ps & _)];
          [simpl; tauto | rewrite E; reflexivity
          | rewrite E; now apply plain_one_line].
      * destruct (Hopt (js "notes")) as [E|(s & E & Ps & _)];
          [simpl; tauto | rewrite E; reflexivity
          | rewrite E; now apply plain_one_line].
      * apply Hstamp. simpl; tauto.
      * apply Hstamp. simpl; tauto.
  - intros key Hk. unfold text_columns in Hk. simpl in Hk.
    destruct Hk as [<-|[<-|[<-|[<-|[<-|[<-|[<-|[<-|[]]]]]]]]].
    + now rewrite Gt, Ht.
    + now rewrite Gp, Hp.
    + now rewrite Gd, Hd.
    + now rewrite Gtp, Htp.
    + now rewrite Gs, Hs.
    + apply (Go _ 5%nat); [simpl; tauto | reflexivity | reflexivity].
    + apply (Go _ 6%nat); [simpl; tauto | reflexivity | reflexivity].
    + apply (Go _ 7%nat); [simpl; tauto | reflexivity | reflexivity].
Qed.

(** C1, amended: an instance. *)
Lemma export_import_roundtrip_witness :
  (plain (js "Two Sum") = true /\ tidy (js "Two Sum") = true)
  /\ exists problem,
       handleImport (js "u1") (fun _ => true) (handleExport [row_two_sum])
       = ([], inr [problem])
       /\ forall key, In key text_columns ->
                      get problem key = get row_two_sum key.
Proof.
  split; [split; reflexivity|].
  apply (export_import_roundtrip (js "u1") (fun _ => true) row_two_sum
           (js "Two Sum") (js "LeetCode") (js "Arrays") (js "Easy")
           (js "Solved")); try reflexivity.
  - left; reflexivity.
  - right; right; left; reflexivity.
  - intros key [<-|[<-|[<-|[]]]].
    + left; reflexivity.
    + left; reflexivity.
    + right. exists (js "hash map"). repeat split.
  - intros key [<-|[<-|[]]]; reflexivity.
Defined.

(** ** Sorting and the distinct solved days *)

Section Sorting.

Variable compare : Z -> Z -> Z.

(** The comparator orders days from the latest to the earliest. *)
Hypothesis compare_desc : forall x y, Z.leb (compare x y) 0 = Z.leb y x.

Lemma sort_insert_In (x z : Z) (l : list Z) :
  In z (Dashboard.sort_insert compare x l) <-> z = x \/ In z l.
Proof.
  induction l as [|y l IH]; simpl.
  - intuition.
  - destruct (Z.leb (compare x y) 0); simpl; [intuition|].
    rewrite IH. intuition.
Qed.

Lemma sort_In (z : Z) (l : list Z) :
  In z (Dashboard.sort compare l) <-> In z l.
Proof.
  induction l as [|x l IH]; simpl; [tauto|].
  rewrite sort_insert_In, IH. intuition.
Qed.

Lemma sort_insert_sorted (x : Z) (l : list Z) :
  StronglySorted Z.ge l ->
  StronglySorted Z.ge (Dashboard.sort_insert compare x l).
Proof.
  induction 1 as [|y l Hl IH Hy]; simpl.
  - repeat constructor.
  - rewrite compare_desc. destruct (Z.leb_spec y x) as [Hle|Hlt].
    + constructor; [now constructor|].
      constructor; [lia|].
      eapply Forall_impl; [|exact Hy]. simpl. intros; lia.
    + constructor; [exact IH|].
      apply Forall_forall. intros z Hz. apply sort_insert_In in Hz.
      destruct Hz as [->|Hz]; [lia|].
      rewrite Forall_forall in Hy. now apply Hy.
Qed.

Lemma sort_sorted (l : list Z) :
  StronglySorted Z.ge (Dashboard.sort compare l).
Proof.
  induction l as [|x l IH]; simpl; [constructor|].
  now apply sort_insert_sorted.
Qed.

End Sorting.

Lemma set_values_In (z : Z) (l : list Z) :
  forall seen,
    In z (Dashboard.set_values seen l) <-> In z l /\ ~ In z seen.
Proof.
  induction l as [|x l IH]; intros seen; simpl; [tauto|].
  destruct (existsb (Z.eqb x) seen) eqn:E.
  - rewrite IH. apply existsb_exists in E as (y & Hy & Exy).
    apply Z.eqb_eq in Exy. subst y. intuition congruence.
  - simpl. rewrite IH. simpl.
    assert (Hx : ~ In x seen).
    { intros Hin. apply not_true_iff_false in E. apply E.
      apply existsb_exists. exists x. split; [exact Hin | apply Z.eqb_refl]. }
    destruct (Z.eq_dec x z) as [->|Hne]; intuition congruence.
Qed.

Lemma set_values_sorted (l : list Z) :
  StronglySorted Z.ge l ->
  forall seen, StronglySorted Z.gt (Dashboard.set_values seen l).
Proof.
  induction 1 as [|x l Hl IH Hx]; intros seen; simpl; [constructor|].
  destruct (existsb (Z.eqb x) seen); [apply IH|].
  constructor; [apply IH|].
  apply Forall_forall. intros z Hz. apply set_values_In in Hz as [Hz Hn].
  rewrite Forall_forall in Hx. specialize (Hx z Hz).
  simpl in Hn. assert (x <> z) by tauto. lia.
Qed.

(** A strictly descending list is determined by its elements. *)
Lemma descending_unique (l1 : list Z) :
  forall l2,
    StronglySorted Z.gt l1 -> StronglySorted Z.gt l2 ->
    (forall d, In d l1 <-> In d l2) -> l1 = l2.
Proof.
  induction l1 as [|a l1 IH]; intros [|b l2] S1 S2 H.
  - reflexivity.
  - exfalso. apply (H b). now left.
  - exfalso. apply (H a). now left.
  - inversion S1 as [|? ? S1' F1]; inversion S2 as [|? ? S2' F2]; subst.
    rewrite Forall_forall in F1, F2.
    assert (a = b).
    { destruct (proj1 (H a) (or_introl eq_refl)) as [E|Ha]; [now symmetry|].
      destruct (proj2 (H b) (or_introl eq_refl)) as [E|Hb]; [exact E|].
      specialize (F1 b Hb). specialize (F2 a Ha). lia. }
    subst b. f_equal. apply IH; try assumption.
    intros d. split; intros Hd.
    + destruct (proj1 (H d) (or_intror Hd)) as [E|Hd']; [|exact Hd'].
      subst d. specialize (F1 a Hd). lia.
    + destruct (proj2 (H d) (or_intror Hd)) as [E|Hd']; [|exact Hd'].
      subst d. specialize (F2 a Hd). lia.
Qed.

(** In a strictly descending list, the run counted from the first entry
    covers a block of consecutive days, and the day before the block is
    not in the list. *)
Lemma consecutive_run_block (rest : list Z) :
  forall prev,
    StronglySorted Z.gt (prev :: rest) ->
    (forall j, (0 <= j <= Z.of_nat (consecutive_run prev rest))%Z ->
               In (prev - j)%Z (prev :: rest))
    /\ ~ In (prev - Z.of_nat (consecutive_run prev rest) - 1)%Z (prev :: rest).
Proof.
  induction rest as [|d rest IH]; intros prev HS.
  - simpl. split.
    + intros j Hj. left. lia.
    + intros [H|[]]. lia.
  - inversion HS as [|? ? HS' F]; subst.
    rewrite Forall_forall in F.
    simpl consecutive_run. destruct (Z.eqb_spec (prev - d) 1) as [E|E].
    + destruct (IH d HS') as [A B]. rewrite Nat2Z.inj_succ. split.
      * intros j Hj. destruct (Z.eq_dec j 0) as [->|Hj0].
        -- left. lia.
        -- right. replace (prev - j)%Z with (d - (j - 1))%Z by lia.
           apply A. lia.
      * intros [H|H]; [lia|]. apply B.
        replace (d - Z.of_nat (consecutive_run d rest) - 1)%Z
          with (prev - Z.succ (Z.of_nat (consecutive_run d rest)) - 1)%Z
          by lia.
        exact H.
    + split.
      * intros j Hj. left. simpl in Hj. lia.
      * simpl Z.of_nat. intros [H|[H|H]]; [lia | lia |].
        inversion HS' as [|? ? _ F']; subst.
        rewrite Forall_forall in F'. specialize (F' _ H).
        specialize (F d (or_introl eq_refl)). lia.
Qed.

(** ** The streak *)

Section Streak.

Variable tz_offset : Z.

Lemma compare_days (x y : Z) :
  Z.leb (dateStringTime tz_offset y - dateStringTime tz_offset x) 0
  = Z.leb y x.
Proof.
  unfold dateStringTime, msPerDay.
  destruct (Z.leb_spec y x); [apply Z.leb_le | apply Z.leb_gt]; lia.
Qed.

Lemma count_consecutive_run (dates : list Z) :
  forall prev,
    Dashboard.count_consecutive tz_offset prev dates
    = consecutive_run prev dates.
Proof.
  induction dates as [|curr rest IH]; intros prev; simpl; [reflexivity|].
  rewrite IH. unfold dateStringTime, msPerDay.
  change (1000 * 3600 * 24)%Z with 86400000%Z.
  destruct (Z.eqb_spec (prev - curr) 1) as [E|E].
  - replace (prev * 86400000 - tz_offset - (curr * 86400000 - tz_offset))%Z
      with 86400000%Z by lia.
    reflexivity.
  - destruct (Z.eqb_spec
                (prev * 86400000 - tz_offset - (curr * 86400000 - tz_offset))
                86400000); [lia | reflexivity].
Qed.

Lemma toDateString_day_before (now : Z) :
  toDateString tz_offset (now - 86400000)
  = (toDateString tz_offset now - 1)%Z.
Proof.
  unfold toDateString, msPerDay.
  replace (now - 86400000 + tz_offset)%Z
    with (now + tz_offset + (-1) * 86400000)%Z by lia.
  rewrite Z.div_add by lia. lia.
Qed.

Lemma uniqueDates_sorted (problems : list Dashboard.problem) :
  StronglySorted Z.gt (Dashboard.uniqueDates tz_offset problems).
Proof.
  unfold Dashboard.uniqueDates, Dashboard.solvedDates.
  apply set_values_sorted, sort_sorted. intros x y. apply compare_days.
Qed.

Lemma uniqueDates_solved_days (rows : list Dashboard.problem) (d : Z) :
  In d (Dashboard.uniqueDates tz_offset (Dashboard.solvedProblems rows))
  <-> solved_day tz_offset rows d.
Proof.
  unfold Dashboard.uniqueDates, Dashboard.solvedDates, solved_day.
  rewrite set_values_In, sort_In, in_flat_map.
  unfold Dashboard.solvedProblems. split.
  - intros [(p & Hp & Hd) _]. apply filter_In in Hp as [Hp Hf].
    apply andb_true_iff in Hf as [Hs _]. apply str_eqb_eq in Hs.
    destruct (Dashboard.solved_at p) as [t|] eqn:Et; [|contradiction].
    destruct Hd as [<-|[]]. now exists p, t.
  - intros (p & t & Hp & Hs & Et & <-). split; [|intros []].
    exists p. split.
    + apply filter_In. split; [exact Hp|].
      rewrite Hs, Et. reflexivity.
    + rewrite Et. now left.
Qed.

Lemma currentStreak_streak_of (rows : list Dashboard.problem) (now : Z) :
  Dashboard.currentStreak tz_offset rows now
  = streak_of (Dashboard.uniqueDates tz_offset (Dashboard.solvedProblems rows))
      (toDateString tz_offset now).
Proof.
  unfold Dashboard.currentStreak, Dashboard.calculateStreak.
  destruct (Dashboard.solvedProblems rows) as [|p ps] eqn:E; [reflexivity|].
  simpl Nat.eqb. cbv iota.
  destruct (Dashboard.uniqueDates tz_offset (p :: ps)) as [|first rest];
    [reflexivity|].
  unfold streak_of. rewrite toDateString_day_before, count_consecutive_run.
  reflexivity.
Qed.

End Streak.

(** The streak in a zone at a fixed offset from UTC.  Let [D] be the
    list that [calculateStreak] derives from the records of status
    Solved.  [D] is strictly descending and holds
    exactly the local calendar days on which some record of status Solved
    was solved.  The current streak is 0 if [D] is empty or its first
    entry is neither today nor yesterday; otherwise it is 1 plus the
    number of following entries that are each exactly one day before
    their predecessor, up to the first gap; the days so counted, from
    the latest solved day backwards, are all solved days and the day
    before them is not.  Solved days today, today-1 and today-2 give 3;
    the single solved day today-2 gives 0. *)
Theorem current_streak (tz_offset : Z) (rows : list Dashboard.problem)
    (now : Z) :
  let D := Dashboard.uniqueDates tz_offset (Dashboard.solvedProblems rows) in
  let today := toDateString tz_offset now in
  let streak := Dashboard.currentStreak tz_offset rows now in
  StronglySorted Z.gt D
  /\ (forall d, In d D <-> solved_day tz_offset rows d)
  /\ (D = [] -> streak = 0%nat)
  /\ (forall latest rest,
        D = latest :: rest -> latest <> today -> latest <> (today - 1)%Z ->
        streak = 0%nat)
  /\ (forall latest rest,
        D = latest :: rest -> latest = today \/ latest = (today - 1)%Z ->
        streak = S (consecutive_run latest rest))
  /\ streak = streak_of D today
  /\ (forall latest rest,
        D = latest :: rest -> latest = today \/ latest = (today - 1)%Z ->
        (forall j, (0 <= j < Z.of_nat streak)%Z ->
                   solved_day tz_offset rows (latest - j)%Z)
        /\ ~ solved_day tz_offset rows (latest - Z.of_nat streak)%Z)
  /\ ((forall d, solved_day tz_offset rows d
                 <-> d = today \/ d = (today - 1)%Z \/ d = (today - 2)%Z) ->
      streak = 3%nat)
  /\ ((forall d, solved_day tz_offset rows d <-> d = (today - 2)%Z) ->
      streak = 0%nat).
Proof.
  intros D today streak.
  assert (HS : StronglySorted Z.gt D) by apply uniqueDates_sorted.
  assert (HD : forall d, In d D <-> solved_day tz_offset rows d)
    by apply uniqueDates_solved_days.
  assert (HE : streak = streak_of D today) by apply currentStreak_streak_of.
  assert (HU : forall l, StronglySorted Z.gt l ->
                         (forall d, solved_day tz_offset rows d <-> In d l) ->
                         D = l).
  { intros l Hl H. apply descending_unique; try assumption.
    intros d. rewrite HD. apply H. }
  clearbody D today streak.
  split; [exact HS|]. split; [exact HD|].
  assert (HR : forall latest rest,
             D = latest :: rest -> latest = today \/ latest = (today - 1)%Z ->
             streak = S (consecutive_run latest rest)).
  { intros latest rest -> H. rewrite HE. simpl.
    destruct H as [ -> | -> ].
    - now rewrite Z.eqb_refl.
    - now rewrite Z.eqb_refl, orb_true_r. }
  split; [|split; [|split; [exact HR|split; [exact HE|split; [|split]]]]].
  - intros ->. exact HE.
  - intros latest rest -> N1 N2. rewrite HE. simpl.
    apply Z.eqb_neq in N1, N2. now rewrite N1, N2.
  - intros latest rest HDl H. rewrite (HR latest rest HDl H).
    rewrite HDl in HS.
    destruct (consecutive_run_block rest latest HS) as [A B].
    rewrite Nat2Z.inj_succ. split.
    + intros j Hj. apply HD. rewrite HDl. apply A. lia.
    + intros Hs. apply HD in Hs. rewrite HDl in Hs. apply B.
      replace (latest - Z.of_nat (consecutive_run latest rest) - 1)%Z
        with (latest - Z.succ (Z.of_nat (consecutive_run latest rest)))%Z
        by lia.
      exact Hs.
  - intros H. rewrite HE.
    rewrite (HU [today; (today - 1)%Z; (today - 2)%Z]).
    + simpl. rewrite Z.eqb_refl. simpl.
      replace (today - (today - 1))%Z with 1%Z by lia.
      replace (today - 1 - (today - 2))%Z with 1%Z by lia.
      reflexivity.
    + repeat constructor; lia.
    + intros d. rewrite H. simpl. intuition.
  - intros H. rewrite HE. rewrite (HU [(today - 2)%Z]).
    + simpl.
      destruct (Z.eqb_spec (today - 2) today); [lia|].
      destruct (Z.eqb_spec (today - 2) (today - 1)); [lia|]. reflexivity.
    + repeat constructor.
    + intros d. rewrite H. simpl. intuition.
Qed.

(** An instance, ten days and eighteen hours after the epoch in a zone
    one hour ahead of UTC. *)
Lemma current_streak_witness :
  Dashboard.currentStreak 3600000 three_days_running 928800000 = 3%nat.
Proof.
  refine (proj1 (proj2 (proj2 (proj2 (proj2 (proj2 (proj2 (proj2
            (current_streak 3600000 three_days_running 928800000))))))))
          _).
  intros d. unfold solved_day, three_days_running. split.
  - intros (p & t & Hp & _ & Ht & <-).
    destruct Hp as [<-|[<-|[<-|[]]]]; injection Ht as <-; vm_compute;
      intuition.
  - change (toDateString 3600000 928800000) with 10%Z.
    intros [ -> | [ -> | -> ] ].
    + exists (solved_at_noon 10), (10 * 86400000 + 43200000)%Z.
      repeat split. simpl. tauto.
    + exists (solved_at_noon 9), (9 * 86400000 + 43200000)%Z.
      repeat split. simpl. tauto.
    + exists (solved_at_noon 8), (8 * 86400000 + 43200000)%Z.
      repeat split. simpl. tauto.
Defined.

(** ** Counting *)

Lemma filter_filter {A : Type} (f g : A -> bool) (l : list A) :
  filter f (filter g l) = filter (fun x => g x && f x) l.
Proof.
  induction l as [|x l IH]; simpl; [reflexivity|].
  destruct (g x); simpl; [destruct (f x)|]; congruence.
Qed.

Lemma filter_none {A : Type} (f : A -> bool) (l : list A) :
  (forall x, f x = false) -> filter f l = [].
Proof.
  intros H. induction l as [|x l IH]; simpl; [reflexivity|].
  now rewrite H.
Qed.

Lemma filter_none_on {A : Type} (f : A -> bool) (l : list A) :
  (forall x, In x l -> f x = false) -> filter f l = [].
Proof.
  induction l as [|x l IH]; intros H; simpl; [reflexivity|].
  rewrite (H x) by now left. apply IH. intros y Hy. apply H. now right.
Qed.

Lemma filter_all_on {A : Type} (f : A -> bool) (l : list A) :
  (forall x, In x l -> f x = true) -> filter f l = l.
Proof.
  induction l as [|x l IH]; intros H; simpl; [reflexivity|].
  rewrite (H x) by now left. f_equal. apply IH. intros y Hy. apply H.
  now right.
Qed.

(** Counting with a predicate that is the disjoint union of two others. *)
Lemma filter_length_split {A : Type} (f g h : A -> bool) (l : list A) :
  (forall x, f x = g x || h x) ->
  (forall x, g x && h x = false) ->
  List.length (filter f l)
  = (List.length (filter g l) + List.length (filter h l))%nat.
Proof.
  intros Hu Hd. induction l as [|x l IH]; simpl; [reflexivity|].
  rewrite Hu. specialize (Hd x).
  destruct (g x), (h x); simpl in *; try discriminate; lia.
Qed.

(** In UTC, a record of status Solved stamped one millisecond after
    [now] lies outside the seven days ending at [now], and [last7Days]
    counts it. *)
Lemma last7Days_counts_later_records :
  let rows := [{| Dashboard.status := js "Solved";
                  Dashboard.solved_at := Some 1000000001%Z |}] in
  let now := 1000000000%Z in
  Dashboard.last7Days 0 rows now = 1%nat
  /\ List.length (filter (solved_between (now - seven_days) now) rows) = 0%nat
  /\ Dashboard.last7Days 0 rows now
     <> List.length (filter (solved_between (now - seven_days) now) rows).
Proof.
  vm_compute. repeat split. discriminate.
Qed.

(** In a zone at a fixed offset from UTC, the last-7-days count is the
    number of records of status Solved whose [solved_at] is at or after
    the instant seven times twenty-four hours before [now]; there is no
    upper bound, so the
    count is that of the window ending at [now], bounds included, plus
    the records stamped later than [now]. *)
Theorem last7Days_count (tz_offset : Z) (rows : list Dashboard.problem)
    (now : Z) :
  Dashboard.last7Days tz_offset rows now
  = List.length (filter (solved_from (now - seven_days)) rows)
  /\ Dashboard.last7Days tz_offset rows now
     = (List.length (filter (solved_between (now - seven_days) now) rows)
        + List.length (filter (solved_after now) rows))%nat.
Proof.
  assert (E : Dashboard.last7Days tz_offset rows now
              = List.length (filter (solved_from (now - seven_days)) rows)).
  { unfold Dashboard.last7Days, Dashboard.solvedProblems. cbv zeta.
    rewrite filter_filter. f_equal. apply filter_ext. intros p.
    unfold solved_from, Dashboard.since, addDays, msPerDay, seven_days.
    replace (now + tz_offset + -7 * 86400000 - tz_offset)%Z
      with (now - 7 * 24 * 3600 * 1000)%Z by lia.
    destruct (Dashboard.solved_at p); simpl;
      [rewrite <- andb_assoc; reflexivity | now rewrite !andb_false_r]. }
  split; [exact E|]. rewrite E.
  apply filter_length_split; intros p;
    unfold solved_from, solved_between, solved_after, seven_days;
    destruct (str_eqb (Dashboard.status p) (js "Solved")); simpl;
    try reflexivity;
    destruct (Dashboard.solved_at p) as [t|]; try reflexivity;
    destruct (Z.leb_spec (now - 7 * 24 * 3600 * 1000) t);
    destruct (Z.leb_spec t now); destruct (Z.ltb_spec now t);
    simpl; try reflexivity; lia.
Qed.

(** ** The daily activity series *)

Section ActivityFacts.

Variable tz_offset : Z.
Variable problems : list Analytics.problem.
Variable now : Z.

Lemma toDateString_addDays (n : Z) :
  toDateString tz_offset (addDays tz_offset now n)
  = (toDateString tz_offset now + n)%Z.
Proof.
  unfold toDateString, addDays, msPerDay.
  replace (now + tz_offset + n * 86400000 - tz_offset + tz_offset)%Z
    with (now + tz_offset + n * 86400000)%Z by lia.
  now rewrite Z.div_add by lia.
Qed.

Lemma addDays_instant (n : Z) :
  addDays tz_offset now n = (now + n * msPerDay)%Z.
Proof. unfold addDays. lia. Qed.

Lemma activity_entry_spec (i : nat) :
  Analytics.activity_entry tz_offset problems now i
  = {| Analytics.date := isoDate (now - Z.of_nat i * msPerDay);
       Analytics.solved :=
         List.length
           (filter (Analytics.solved_on tz_offset
                      (toDateString tz_offset now - Z.of_nat i))
                   problems) |}.
Proof.
  unfold Analytics.activity_entry.
  rewrite toDateString_addDays, addDays_instant.
  f_equal. f_equal. lia.
Qed.

Lemma activity_loop_map (n : nat) :
  Analytics.activity_loop tz_offset problems now n
  = List.map (Analytics.activity_entry tz_offset problems now)
             (rev (seq 0 n)).
Proof.
  induction n as [|n IH]; [reflexivity|].
  rewrite seq_S, rev_app_distr. simpl. now rewrite IH.
Qed.

Lemma activity_loop_sum (n : nat) :
  fold_right plus 0%nat
    (List.map Analytics.solved
       (Analytics.activity_loop tz_offset problems now n))
  = List.length (filter (solved_within tz_offset now n) problems).
Proof.
  induction n as [|n IH].
  - simpl. rewrite filter_none; [reflexivity|].
    intros p. unfold solved_within.
    destruct (Analytics.solved_at p) as [t|]; [|reflexivity].
    set (today := toDateString tz_offset now).
    set (day := toDateString tz_offset t).
    destruct (Z.ltb_spec (today - Z.of_nat 0) day);
      destruct (Z.leb_spec day today); simpl; try reflexivity; lia.
  - change (Analytics.activity_loop tz_offset problems now (S n))
      with (Analytics.activity_entry tz_offset problems now n
            :: Analytics.activity_loop tz_offset problems now n).
    rewrite map_cons. cbn [fold_right].
    rewrite IH, activity_entry_spec. cbn [Analytics.solved].
    symmetry. rewrite Nat.add_comm.
    set (today := toDateString tz_offset now).
    apply filter_length_split; intros p;
      unfold solved_within, Analytics.solved_on; fold today;
      destruct (Analytics.solved_at p) as [t|]; try reflexivity;
      set (day := toDateString tz_offset t);
      destruct (Z.ltb_spec (today - Z.of_nat (S n)) day);
      destruct (Z.ltb_spec (today - Z.of_nat n) day);
      destruct (Z.leb_spec day today);
      destruct (Z.eqb_spec day (today - Z.of_nat n));
      simpl; try reflexivity; lia.
Qed.

Lemma within_window (p : Analytics.problem) :
  solved_within tz_offset now 30 p = in_window tz_offset now p.
Proof.
  unfold solved_within, in_window.
  destruct (Analytics.solved_at p) as [t|]; [|reflexivity].
  set (today := toDateString tz_offset now).
  set (day := toDateString tz_offset t).
  f_equal.
  destruct (Z.ltb_spec (today - Z.of_nat 30) day);
    destruct (Z.leb_spec (today - 29) day); try reflexivity; lia.
Qed.

End ActivityFacts.

(** The series in a zone at a fixed offset from UTC.  It has exactly 30
    entries, whatever the records.  They are the entries for [i] = 29,
    28, ..., 0 in this order:
    the entry for [i] is labelled with the UTC date of the instant [i]
    days before [now] and counts the records whose [solved_at] falls on
    the local calendar day [i] days before today.  The 30 counts add up
    to the number of records whose [solved_at] falls on a day from 29
    days before today through today. *)
Theorem activity_series (tz_offset : Z) (problems : list Analytics.problem)
    (now : Z) :
  let today := toDateString tz_offset now in
  let series := Analytics.activityData tz_offset problems now in
  List.length series = 30%nat
  /\ series
     = List.map
         (fun i =>
            {| Analytics.date := isoDate (now - Z.of_nat i * msPerDay);
               Analytics.solved :=
                 List.length
                   (filter (Analytics.solved_on tz_offset
                              (today - Z.of_nat i)) problems) |})
         (rev (seq 0 30))
  /\ rev (seq 0 30)
     = [29; 28; 27; 26; 25; 24; 23; 22; 21; 20; 19; 18; 17; 16; 15; 14; 13;
        12; 11; 10; 9; 8; 7; 6; 5; 4; 3; 2; 1; 0]%nat
  /\ fold_right plus 0%nat (List.map Analytics.solved series)
     = List.length (filter (in_window tz_offset now) problems).
Proof.
  intros today series.
  assert (E : series
              = List.map (Analytics.activity_entry tz_offset problems now)
                         (rev (seq 0 30))).
  { apply activity_loop_map. }
  repeat apply conj.
  - rewrite E, length_map, length_rev, length_seq. reflexivity.
  - rewrite E. apply map_ext. intros i. apply activity_entry_spec.
  - reflexivity.
  - unfold series, Analytics.activityData. rewrite activity_loop_sum.
    f_equal. apply filter_ext. intros p. apply within_window.
Qed.

(** ** Zones whose clocks change *)

(** In a zone at a fixed offset the statistics are those of the sections
    above. *)
Lemma unchanging_utc (tz_offset l : Z) :
  Zoned.utc (Zoned.unchanging tz_offset) l = (l - tz_offset)%Z.
Proof.
  unfold Zoned.utc. simpl.
  destruct (Z.ltb _ _); [reflexivity|]. destruct (Z.leb _ _); reflexivity.
Qed.

Lemma unchanging_local_time (tz_offset t : Z) :
  Zoned.local_time (Zoned.unchanging tz_offset) t = (t + tz_offset)%Z.
Proof.
  unfold Zoned.local_time, Zoned.offset_at. simpl.
  destruct (Z.ltb _ _); reflexivity.
Qed.

Lemma unchanging_toDateString (tz_offset t : Z) :
  Zoned.toDateString (Zoned.unchanging tz_offset) t = toDateString tz_offset t.
Proof.
  unfold Zoned.toDateString. now rewrite unchanging_local_time.
Qed.

Lemma unchanging_dateStringTime (tz_offset day : Z) :
  Zoned.dateStringTime (Zoned.unchanging tz_offset) day
  = dateStringTime tz_offset day.
Proof.
  unfold Zoned.dateStringTime. now rewrite unchanging_utc.
Qed.

Lemma unchanging_addDays (tz_offset t n : Z) :
  Zoned.addDays (Zoned.unchanging tz_offset) t n = addDays tz_offset t n.
Proof.
  unfold Zoned.addDays. now rewrite unchanging_utc, unchanging_local_time.
Qed.

Lemma sort_ext {A : Type} (f g : A -> A -> Z) (l : list A) :
  (forall a b, f a b = g a b) -> Dashboard.sort f l = Dashboard.sort g l.
Proof.
  intros H. induction l as [|x l IH]; simpl; [reflexivity|].
  rewrite IH. generalize (Dashboard.sort g l). intros s.
  induction s as [|y s IHs]; simpl; [reflexivity|].
  now rewrite H, IHs.
Qed.

Lemma unchanging_count_consecutive (tz_offset : Z) (dates : list Z) :
  forall prev,
    Zoned.count_consecutive (Zoned.unchanging tz_offset) prev dates
    = Dashboard.count_consecutive tz_offset prev dates.
Proof.
  induction dates as [|curr rest IH]; intros prev; simpl; [reflexivity|].
  now rewrite !unchanging_dateStringTime, IH.
Qed.

Lemma unchanging_uniqueDates (tz_offset : Z)
    (problems : list Dashboard.problem) :
  Zoned.uniqueDates (Zoned.unchanging tz_offset) problems
  = Dashboard.uniqueDates tz_offset problems.
Proof.
  unfold Zoned.uniqueDates, Dashboard.uniqueDates, Zoned.solvedDates,
    Dashboard.solvedDates.
  f_equal. rewrite (flat_map_ext _
    (fun p => match Dashboard.solved_at p with
              | Some t => [toDateString tz_offset t]
              | None => []
              end)).
  - apply sort_ext. intros a b. now rewrite !unchanging_dateStringTime.
  - intros p. destruct (Dashboard.solved_at p); [|reflexivity].
    now rewrite unchanging_toDateString.
Qed.

Lemma unchanging_currentStreak (tz_offset : Z)
    (rows : list Dashboard.problem) (now : Z) :
  Zoned.currentStreak (Zoned.unchanging tz_offset) rows now
  = Dashboard.currentStreak tz_offset rows now.
Proof.
  unfold Zoned.currentStreak, Dashboard.currentStreak, Zoned.calculateStreak,
    Dashboard.calculateStreak.
  rewrite unchanging_uniqueDates.
  destruct (Nat.eqb _ 0); [reflexivity|].
  destruct (Dashboard.uniqueDates _ _) as [|first rest]; [reflexivity|].
  cbv zeta. now rewrite !unchanging_toDateString, unchanging_count_consecutive.
Qed.

Lemma unchanging_last7Days (tz_offset : Z) (rows : list Dashboard.problem)
    (now : Z) :
  Zoned.last7Days (Zoned.unchanging tz_offset) rows now
  = Dashboard.last7Days tz_offset rows now.
Proof.
  unfold Zoned.last7Days, Dashboard.last7Days.
  now rewrite unchanging_addDays.
Qed.

Lemma unchanging_activityData (tz_offset : Z)
    (problems : list Analytics.problem) (now : Z) :
  Zoned.activityData (Zoned.unchanging tz_offset) problems now
  = Analytics.activityData tz_offset problems now.
Proof.
  unfold Zoned.activityData, Analytics.activityData.
  generalize 30%nat. intros n.
  induction n as [|n IH]; simpl; [reflexivity|].
  rewrite IH. f_equal.
  unfold Zoned.activity_entry, Analytics.activity_entry.
  rewrite unchanging_addDays, unchanging_toDateString.
  f_equal. f_equal. apply filter_ext. intros p.
  unfold Zoned.solved_on, Analytics.solved_on.
  destruct (Analytics.solved_at p); [|reflexivity].
  now rewrite unchanging_toDateString.
Qed.



Lemma zoned_activity_loop_map (z : Zoned.zone)
    (problems : list Analytics.problem) (now : Z) (n : nat) :
  Zoned.activity_loop z problems now n
  = List.map (Zoned.activity_entry z problems now) (rev (seq 0 n)).
Proof.
  induction n as [|n IH]; [reflexivity|].
  rewrite seq_S, rev_app_distr. simpl. now rewrite IH.
Qed.

(** C3.  New York, 3 November 2025, 12:00 local time (17:00 UTC), with
    three records of status Solved, solved at 10:00 local time of today,
    of yesterday and of the day before.  The solved days are today,
    today-1 and today-2, and [calculateStreak] derives exactly that
    descending list; a streak counted in calendar days is 3.  The clocks
    went back on 2 November, so local midnight of today lies twenty-five
    hours after local midnight of yesterday: [diffDays] is not 1, the
    loop stops at its first turn and the current streak is 1. *)
Theorem streak_stops_at_clock_change :
  let now := at_utc 20395 17 0 in
  let today := Zoned.toDateString new_york now in
  today = 20395%Z
  /\ List.map (fun p => option_map (Zoned.toDateString new_york)
                          (Dashboard.solved_at p))
       three_days_new_york
     = [Some today; Some (today - 1)%Z; Some (today - 2)%Z]
  /\ Dashboard.solvedProblems three_days_new_york = three_days_new_york
  /\ Zoned.uniqueDates new_york (Dashboard.solvedProblems three_days_new_york)
     = [today; (today - 1)%Z; (today - 2)%Z]
  /\ streak_of [today; (today - 1)%Z; (today - 2)%Z] today = 3%nat
  /\ (Zoned.dateStringTime new_york today
      - Zoned.dateStringTime new_york (today - 1))%Z
     = (25 * 3600000)%Z
  /\ Zoned.count_consecutive new_york today [(today - 1)%Z; (today - 2)%Z]
     = 0%nat
  /\ Zoned.currentStreak new_york three_days_new_york now = 1%nat.
Proof.
  vm_compute. repeat split.
Qed.




(** C7.  In every zone the entry for [i] is labelled with the UTC date of
    the instant [i] local days before [now] and counts the records
    solved on the local date of that same instant.  Bogota, 16 August
    2025, 20:00 local time (01:00 UTC of 17 August), with one record
    solved at 13:00 local time of 16 August (18:00 UTC): the record's
    date is 16 August in local time and in UTC alike.  The series has 30
    entries; its last two are the entry dated 16 August with count 0 and
    the entry dated 17 August with count 1, and the entry dated 16
    August is the only one of that date. *)
Theorem activity_count_is_not_of_the_date :
  (forall (z : Zoned.zone) (problems : list Analytics.problem) (now : Z),
     Zoned.activityData z problems now
     = List.map
         (fun i =>
            let instant := Zoned.addDays z now (- Z.of_nat i) in
            {| Analytics.date := isoDate instant;
               Analytics.solved :=
                 List.length
                   (filter (Zoned.solved_on z (Zoned.toDateString z instant))
                           problems) |})
         (rev (seq 0 30)))
  /\ let now := at_utc 20317 1 0 in
     let t := at_utc 20316 18 0 in
     let series :=
       Zoned.activityData bogota [{| Analytics.solved_at := Some t |}] now in
     Zoned.toDateString bogota now = 20316%Z
     /\ isoDate now = 20317%Z
     /\ Zoned.toDateString bogota t = 20316%Z
     /\ isoDate t = 20316%Z
     /\ List.length series = 30%nat
     /\ skipn 28 series
        = [{| Analytics.date := 20316%Z; Analytics.solved := 0 |};
           {| Analytics.date := 20317%Z; Analytics.solved := 1 |}]
     /\ filter (fun e => Z.eqb (Analytics.date e) 20316) series
        = [{| Analytics.date := 20316%Z; Analytics.solved := 0 |}].
Proof.
  split.
  - intros z problems now. unfold Zoned.activityData.
    rewrite zoned_activity_loop_map. reflexivity.
  - vm_compute. repeat split.
Qed.

(** * Further properties of the import/export page *)

(** ** [parseCSVLine] against the export and against [split] *)

(** X1.  [parseCSVLine] undoes the encoding of an exported row, whatever
    the column values hold (commas, double quotes and newlines included):
    it returns exactly ten fields, the texts of the ten columns in the
    order of the header row, null and undefined columns as empty text. *)
Theorem parseCSVLine_inverts_export_row (problem : object) :
  parseCSVLine (export_row problem)
  = List.map (fun header => content (get problem header)) export_headers
  /\ List.length (parseCSVLine (export_row problem)) = 10%nat.
Proof.
  rewrite parseCSVLine_export_row. split; reflexivity.
Qed.

Lemma split_not_nil (sep : N) (s : jsstring) : split sep s <> [].
Proof.
  destruct s as [|c s]; simpl; [discriminate|].
  destruct (N.eqb c sep); [discriminate|].
  destruct (split sep s); discriminate.
Qed.

Lemma parse_loop_without_quotes (line : jsstring) :
  includes dquote line = false ->
  forall result current,
    parse_loop line result current false
    = result ++ match split comma line with
                | field :: fields => (current ++ field) :: fields
                | [] => [current]
                end.
Proof.
  induction line as [|c rest IH]; intros Hq result current.
  - simpl. now rewrite app_nil_r.
  - rewrite includes_cons in Hq. apply orb_false_iff in Hq as [Hc Hq].
    rewrite N.eqb_sym in Hc. specialize (IH Hq).
    simpl. rewrite Hc. destruct (N.eqb c comma) eqn:E; simpl.
    + rewrite IH, <- app_assoc. simpl.
      rewrite app_nil_r.
      destruct (split comma rest) eqn:Es; [now elim (split_not_nil _ _ Es)|].
      reflexivity.
    + rewrite IH.
      destruct (split comma rest) eqn:Es; [now elim (split_not_nil _ _ Es)|].
      now rewrite <- app_assoc.
Qed.

(** X2.  On a line that holds no double quote, [parseCSVLine] and the
    plain [split] at commas used for the header line give the same
    fields. *)
Theorem parseCSVLine_without_quotes (line : jsstring) :
  ~ In dquote line -> parseCSVLine line = split comma line.
Proof.
  intros H. unfold parseCSVLine.
  rewrite parse_loop_without_quotes.
  - destruct (split comma line) eqn:Es; [now elim (split_not_nil _ _ Es)|].
    reflexivity.
  - rewrite <- includes_In in H. now destruct (includes dquote line).
Qed.

(** X2: an instance. *)
Lemma parseCSVLine_without_quotes_witness :
  ~ In dquote (js "Two Sum,LeetCode,,Arrays")
  /\ parseCSVLine (js "Two Sum,LeetCode,,Arrays")
     = split comma (js "Two Sum,LeetCode,,Arrays").
Proof.
  assert (H : ~ In dquote (js "Two Sum,LeetCode,,Arrays")).
  { rewrite <- includes_In. vm_compute. discriminate. }
  split; [exact H|].
  exact (parseCSVLine_without_quotes (js "Two Sum,LeetCode,,Arrays") H).
Defined.

(** ** What an imported record can hold *)

Lemma trim_start_split (s : jsstring) :
  exists w, s = w ++ trim_start s /\ forallb is_white_space w = true.
Proof.
  induction s as [|c s (w & E & Hw)]; simpl.
  - now exists [].
  - destruct (is_white_space c) eqn:Ec.
    + exists (c :: w). simpl. rewrite Ec, Hw. split; [now f_equal | reflexivity].
    + now exists [].
Qed.

Lemma trim_start_head (s : jsstring) (c : N) (r : jsstring) :
  trim_start s = c :: r -> is_white_space c = false.
Proof.
  induction s as [|x s IH]; simpl; [discriminate|].
  destruct (is_white_space x) eqn:Ex; [exact IH|].
  intros [= -> _]. exact Ex.
Qed.

Lemma trim_start_fixed (s : jsstring) :
  (forall c r, s = c :: r -> is_white_space c = false) -> trim_start s = s.
Proof.
  destruct s as [|c r]; intros H; [reflexivity|].
  simpl. now rewrite (H c r eq_refl).
Qed.

Lemma trim_trim (s : jsstring) : trim (trim s) = trim s.
Proof.
  unfold trim.
  set (a := trim_start s). set (b := trim_start (rev a)).
  assert (Hb : trim_start (rev b) = rev b).
  { apply trim_start_fixed. intros c r Hc.
    destruct (trim_start_split (rev a)) as (w & E & Hw). fold b in E.
    apply (f_equal (@rev N)) in E. rewrite rev_involutive, rev_app_distr in E.
    rewrite Hc in E. simpl in E.
    apply (trim_start_head s c (r ++ rev w)). exact E. }
  rewrite Hb, rev_involutive.
  assert (Hbb : trim_start b = b).
  { apply trim_start_fixed. intros c r Hc.
    apply (trim_start_head (rev a) c r). exact Hc. }
  now rewrite Hbb.
Qed.

Lemma value_at_trimmed (values : list jsstring) (i : nat) :
  trim (value_at values i) = value_at values i.
Proof.
  unfold value_at. destruct (nth_error values i); [apply trim_trim|reflexivity].
Qed.

Lemma import_keeps_user_id_aux (user_id : jsstring)
    (date_parse_ok : jsstring -> bool) (headers values : list jsstring) :
  get (build_problem user_id date_parse_ok headers values) (js "user_id")
  = Str user_id.
Proof.
  unfold build_problem. rewrite get_forEach_header.
  destruct (last_index (js "user_id") headers); reflexivity.
Qed.

(** X3.  The record built from a data row always belongs to the signed-in
    user: no header of the file, not even one named user_id, changes the
    [user_id] property. *)
Theorem import_keeps_user_id (user_id : jsstring)
    (date_parse_ok : jsstring -> bool) (headers values : list jsstring) :
  get (build_problem user_id date_parse_ok headers values) (js "user_id")
  = Str user_id.
Proof. apply import_keeps_user_id_aux. Qed.

(** What [build_problem] leaves under one of the nine headers it acts
    on. *)
Lemma get_build_problem_cases (user_id : jsstring)
    (date_parse_ok : jsstring -> bool) (headers values : list jsstring)
    (key : jsstring) :
  In key known_headers ->
  get (build_problem user_id date_parse_ok headers values) key = Undefined
  \/ exists i,
       last_index key headers = Some i
       /\ stored date_parse_ok key (value_at values i)
          = Some (get (build_problem user_id date_parse_ok headers values) key).
Proof.
  intros Hk. unfold build_problem. rewrite get_forEach_header.
  destruct (last_index key headers) as [i|] eqn:Hi.
  - right. exists i. split; [reflexivity|]. simpl.
    destruct (stored date_parse_ok key (value_at values i)) eqn:Hs;
      [reflexivity|].
    apply stored_known in Hs. contradiction.
  - left. unfold known_headers in Hk. simpl in Hk.
    destruct Hk as [<-|[<-|[<-|[<-|[<-|[<-|[<-|[<-|[<-|[]]]]]]]]]];
      reflexivity.
Qed.

(** X4.  No text stored by the import carries white space at either end:
    whatever the import leaves under one of the nine headers it acts on
    is absent, null, or a text equal to its own trimming. *)
Theorem imported_values_are_trimmed (user_id : jsstring)
    (date_parse_ok : jsstring -> bool) (headers values : list jsstring)
    (key s : jsstring) :
  In key known_headers ->
  get (build_problem user_id date_parse_ok headers values) key = Str s ->
  trim s = s.
Proof.
  intros Hk Hs.
  destruct (get_build_problem_cases user_id date_parse_ok headers values
              key Hk) as [E|(i & _ & E)]; [congruence|].
  rewrite Hs in E. clear Hs.
  pose proof (value_at_trimmed values i) as T.
  set (value := value_at values i) in *. clearbody value.
  unfold stored in E.
  destruct (array_includes [js "title"; js "platform"; js "topic"] key).
  { injection E as <-. exact T. }
  destruct (str_eqb key (js "difficulty")).
  { destruct (array_includes difficulties value); injection E as <-;
      [exact T | reflexivity]. }
  destruct (str_eqb key (js "status")).
  { destruct (array_includes statuses value); injection E as <-;
      [exact T | reflexivity]. }
  destruct (array_includes [js "problem_url"; js "solution_url"; js "notes"]
              key).
  { destruct (truthy value); [injection E as <-; exact T | discriminate]. }
  destruct (str_eqb key (js "solved_at")); [|discriminate].
  destruct (truthy value && date_parse_ok value);
    [injection E as <-; exact T | discriminate].
Qed.

(** X4: an instance. *)
Lemma imported_values_are_trimmed_witness :
  let problem :=
    build_problem (js "u1") (fun _ => true)
      [js "title"; js "platform"; js "difficulty"; js "topic"]
      (parseCSVLine (js " A ,LeetCode,Easy,Arrays")) in
  get problem (js "title") = Str (js "A") /\ trim (js "A") = js "A".
Proof.
  split; [reflexivity|].
  apply (imported_values_are_trimmed (js "u1") (fun _ => true)
           [js "title"; js "platform"; js "difficulty"; js "topic"]
           (parseCSVLine (js " A ,LeetCode,Easy,Arrays")) (js "title")).
  - left; reflexivity.
  - reflexivity.
Defined.

Lemma truthy_not_nil (s : jsstring) : truthy s = true <-> s <> [].
Proof. destruct s; simpl; split; congruence. Qed.

Lemma not_falsy (v : jsval) :
  falsy v = false -> exists s, v = Str s /\ s <> [].
Proof.
  destruct v as [| |s]; simpl; try discriminate.
  rewrite negb_false_iff, truthy_not_nil. intros H. now exists s.
Qed.

Lemma pushed_record_insertable (user_id : jsstring)
    (date_parse_ok : jsstring -> bool) (headers values : list jsstring) :
  lacks_required (build_problem user_id date_parse_ok headers values) = false ->
  insertable (build_problem user_id date_parse_ok headers values).
Proof.
  set (p := build_problem user_id date_parse_ok headers values).
  unfold lacks_required. rewrite !orb_false_iff.
  intros [[[Ht Hp] Hd] Htp].
  assert (C : forall key, In key known_headers ->
                get p key = Undefined
                \/ exists i, stored date_parse_ok key (value_at values i)
                             = Some (get p key)).
  { intros key Hk.
    destruct (get_build_problem_cases user_id date_parse_ok headers values
                key Hk) as [E|(i & _ & E)]; [now left | right; now exists i]. }
  repeat split.
  - intros key [<-|[<-|[<-|[]]]]; now apply not_falsy.
  - destruct (C (js "difficulty")) as [E|(i & E)]; [simpl; tauto| |].
    + rewrite E in Hd. discriminate.
    + change (stored date_parse_ok (js "difficulty") (value_at values i))
        with (Some (Str (if array_includes difficulties (value_at values i)
                         then value_at values i else js "Easy"))) in E.
      destruct (array_includes difficulties (value_at values i)) eqn:A;
        injection E as E; rewrite <- E; eexists; (split; [reflexivity|]).
      * apply array_includes_In in A. exact A.
      * now left.
  - destruct (C (js "status")) as [E|(i & E)]; [simpl; tauto| |].
    + now left.
    + right.
      change (stored date_parse_ok (js "status") (value_at values i))
        with (Some (Str (if array_includes statuses (value_at values i)
                         then value_at values i else js "Todo"))) in E.
      destruct (array_includes statuses (value_at values i)) eqn:A;
        injection E as E; rewrite <- E; eexists; (split; [reflexivity|]).
      * apply array_includes_In in A. exact A.
      * now left.
  - intros key Hk Hg.
    assert (Hk' : In key known_headers).
    { simpl in Hk. unfold known_headers. simpl. tauto. }
    destruct (C key Hk') as [E|(i & E)]; [congruence|].
    rewrite Hg in E.
    destruct Hk as [<-|[<-|[<-|[<-|[]]]]];
      [ change (Some (if truthy (value_at values i)
                      then Str (value_at values i) else Null)
                = Some (Str [])) in E ..
      | change (Some (if truthy (value_at values i)
                         && date_parse_ok (value_at values i)
                      then Str (value_at values i) else Null)
                = Some (Str [])) in E ];
      destruct (value_at values i); simpl in E; try discriminate;
      destruct (date_parse_ok _); discriminate.
Qed.

Lemma import_success_records (user_id : jsstring)
    (date_parse_ok : jsstring -> bool) (text : jsstring)
    (problems : list object) :
  snd (handleImport user_id date_parse_ok text) = inr problems ->
  problems = valid_records user_id date_parse_ok text.
Proof.
  intros Hok. rewrite handleImport_cases in Hok. cbv zeta in Hok.
  unfold valid_records. rewrite <- import_rows_problems with (i := 1%nat).
  destruct (Nat.ltb _ 2); [discriminate|].
  destruct (missingHeaders _); [|discriminate].
  simpl in Hok.
  destruct (snd (import_rows _ _ _ _ _)); [discriminate|].
  now injection Hok as <-.
Qed.

(** X5.  Every record that a successful import hands to the database
    insert satisfies the constraints of the [problems] table: non-empty
    title, platform and topic; a difficulty among Easy, Medium, Hard; a
    status that is absent or among Todo, In Progress, Solved, Reviewed; no
    optional column holding the empty text; and it belongs to the
    signed-in user. *)
Theorem imported_records_insertable (user_id : jsstring)
    (date_parse_ok : jsstring -> bool) (text : jsstring)
    (problems : list object) :
  snd (handleImport user_id date_parse_ok text) = inr problems ->
  Forall (fun p => insertable p /\ get p (js "user_id") = Str user_id)
         problems.
Proof.
  intros Hok. apply import_success_records in Hok. subst problems.
  apply Forall_forall. intros p Hp. unfold valid_records in Hp.
  apply in_flat_map in Hp as (line & _ & Hp).
  rewrite import_row_cases in Hp. cbv zeta in Hp.
  destruct (lacks_required _) eqn:L; [contradiction|].
  destruct Hp as [<-|[]]. split.
  - now apply pushed_record_insertable.
  - apply import_keeps_user_id_aux.
Qed.

(** X5: an instance. *)
Lemma imported_records_insertable_witness :
  exists problems,
    snd (handleImport (js "u1") (fun _ => true) text_invalid_then_valid)
    = inr problems
    /\ Forall (fun p => insertable p /\ get p (js "user_id") = Str (js "u1"))
              problems.
Proof.
  eexists. split; [reflexivity|].
  exact (imported_records_insertable (js "u1") (fun _ => true)
           text_invalid_then_valid _ eq_refl).
Defined.

(** ** Lines of a text *)

Lemma split_app (sep : N) (a b : jsstring) :
  split sep (a ++ sep :: b) = split sep a ++ split sep b.
Proof.
  induction a as [|c a IH]; simpl.
  - now rewrite N.eqb_refl.
  - destruct (N.eqb c sep); [now rewrite IH|].
    rewrite IH.
    destruct (split sep a) eqn:Es; [now elim (split_not_nil _ _ Es)|].
    reflexivity.
Qed.

Lemma nonblank_lines_app (a b : jsstring) :
  nonblank_lines (a ++ newline :: b) = nonblank_lines a ++ nonblank_lines b.
Proof.
  unfold nonblank_lines. now rewrite split_app, filter_app.
Qed.

Lemma trim_blank (s : jsstring) : blank s = true -> trim s = [].
Proof.
  intros H. unfold trim.
  assert (E : trim_start s = []).
  { induction s as [|c s IH]; [reflexivity|].
    unfold blank in H. simpl in H. apply andb_true_iff in H as [Hc Hs].
    simpl. rewrite Hc. now apply IH. }
  now rewrite E.
Qed.

Lemma split_blank (sep : N) (s : jsstring) :
  blank s = true -> Forall (fun line => blank line = true) (split sep s).
Proof.
  induction s as [|c s IH]; intros H.
  - repeat constructor.
  - unfold blank in H. simpl in H. apply andb_true_iff in H as [Hc Hs].
    specialize (IH Hs). simpl. destruct (N.eqb c sep).
    + constructor; [reflexivity | exact IH].
    + destruct (split sep s) as [|f fs]; [repeat constructor; simpl|].
      * unfold blank. simpl. now rewrite Hc.
      * inversion IH as [|? ? Hf Hfs]; subst. constructor; [|exact Hfs].
        unfold blank in *. simpl. now rewrite Hc.
Qed.

Lemma nonblank_lines_blank (s : jsstring) :
  blank s = true -> nonblank_lines s = [].
Proof.
  intros H. unfold nonblank_lines. apply filter_none_on.
  pose proof (split_blank newline s H) as F. rewrite Forall_forall in F.
  intros line Hl. rewrite trim_blank; [reflexivity | now apply F].
Qed.

Lemma handleImport_by_lines (user_id : jsstring)
    (date_parse_ok : jsstring -> bool) (t1 t2 : jsstring) :
  nonblank_lines t1 = nonblank_lines t2 ->
  handleImport user_id date_parse_ok t1 = handleImport user_id date_parse_ok t2.
Proof. intros E. unfold handleImport. now rewrite E. Qed.

(** X6.  Blank lines do not count.  A stretch of white space (spaces,
    tabs, carriage returns, further newlines) set on lines of its own
    between two parts of a text, or after its end, changes nothing of
    what the import does: same outcome, same row numbers in the
    warnings. *)
Theorem import_ignores_blank_lines (user_id : jsstring)
    (date_parse_ok : jsstring -> bool) (a w b : jsstring) :
  blank w = true ->
  handleImport user_id date_parse_ok (a ++ newline :: w ++ newline :: b)
  = handleImport user_id date_parse_ok (a ++ newline :: b)
  /\ handleImport user_id date_parse_ok (a ++ newline :: w)
     = handleImport user_id date_parse_ok a.
Proof.
  intros Hw. split; apply handleImport_by_lines.
  - rewrite !nonblank_lines_app, (nonblank_lines_blank w Hw). reflexivity.
  - rewrite nonblank_lines_app, (nonblank_lines_blank w Hw).
    now rewrite app_nil_r.
Qed.

(** X6: an instance, a line of two spaces and a carriage return. *)
Lemma import_ignores_blank_lines_witness :
  blank [32; 32; 13]%N = true
  /\ handleImport (js "u1") (fun _ => true)
       (js "title,platform,difficulty,topic" ++ newline :: [32; 32; 13]%N
        ++ newline :: js "Two Sum,LeetCode,Easy,Arrays")
     = handleImport (js "u1") (fun _ => true) text_one_valid.
Proof.
  split; [reflexivity|].
  exact (proj1 (import_ignores_blank_lines (js "u1") (fun _ => true)
                  (js "title,platform,difficulty,topic") [32; 32; 13]%N
                  (js "Two Sum,LeetCode,Easy,Arrays") eq_refl)).
Defined.

(** ** Export of a collection, then import *)

Lemma nonblank_lines_single (line : jsstring) :
  includes newline line = false ->
  nonblank_lines line = filter (fun l => truthy (trim l)) [line].
Proof.
  intros H. unfold nonblank_lines. now rewrite split_without_sep.
Qed.

Lemma nonblank_lines_join (lines : list jsstring) :
  (forall line, In line lines -> includes newline line = false) ->
  nonblank_lines (join [newline] lines)
  = filter (fun l => truthy (trim l)) lines.
Proof.
  induction lines as [|a lines IH]; intros H; [reflexivity|].
  destruct lines as [|b lines].
  - apply nonblank_lines_single. apply H. now left.
  - rewrite join_cons_cons.
    change (a ++ [newline] ++ join [newline] (b :: lines))
      with (a ++ newline :: join [newline] (b :: lines)).
    rewrite nonblank_lines_app, IH.
    + rewrite nonblank_lines_single by (apply H; now left).
      now rewrite <- filter_app.
    + intros line Hl. apply H. now right.
Qed.

Lemma nonblank_lines_export (data : list object) :
  (forall r header, In r data -> In header export_headers ->
     includes newline (content (get r header)) = false) ->
  nonblank_lines (handleExport data)
  = join [comma] export_headers :: List.map export_row data.
Proof.
  intros H. unfold handleExport. rewrite nonblank_lines_join.
  - simpl filter.
    change (truthy (trim (join [comma] export_headers))) with true.
    cbv iota. f_equal.
    induction data as [|r data IH]; [reflexivity|].
    simpl. rewrite export_row_not_blank. f_equal. apply IH.
    intros r' header Hr. apply H. now right.
  - intros line [<-|Hl]; [reflexivity|].
    apply in_map_iff in Hl as (r & <- & Hr).
    apply export_row_one_line. intros header. now apply H.
Qed.

Lemma flat_map_filter_map {A B : Type} (f : A -> B) (keep : B -> bool)
    (l : list A) :
  flat_map (fun x => if keep (f x) then [f x] else []) l
  = filter keep (List.map f l).
Proof.
  induction l as [|x l IH]; simpl; [reflexivity|].
  rewrite IH. destruct (keep (f x)); reflexivity.
Qed.

(** X7.  Exporting a collection whose column values hold no newline and
    importing the file back never stops at the header check.  It fails
    as too short exactly when the collection is empty.  Otherwise every
    record is rebuilt from the texts of its ten columns, the rebuilt
    records that lack a required field are skipped with one warning each,
    and the others are the result, in order; with none left the import
    fails for having no valid row. *)
Theorem export_then_import (user_id : jsstring)
    (date_parse_ok : jsstring -> bool) (data : list object) :
  (forall r header, In r data -> In header export_headers ->
     includes newline (content (get r header)) = false) ->
  let rebuilt r :=
    build_problem user_id date_parse_ok export_headers
      (List.map (fun header => content (get r header)) export_headers) in
  let kept :=
    filter (fun p => negb (lacks_required p)) (List.map rebuilt data) in
  let outcome := handleImport user_id date_parse_ok (handleExport data) in
  snd outcome
  = match data, kept with
    | [], _ => inl msg_too_short
    | _ :: _, [] => inl msg_no_valid
    | _ :: _, _ :: _ => inr kept
    end
  /\ (List.length (fst outcome) + List.length kept = List.length data)%nat.
Proof.
  intros H rebuilt kept outcome.
  pose proof (nonblank_lines_export data H) as L.
  assert (Hrun : snd (import_rows user_id date_parse_ok export_headers 1
                        (List.map export_row data)) = kept).
  { rewrite import_rows_problems. unfold kept.
    rewrite <- flat_map_filter_map, flat_map_concat_map, map_map,
      <- flat_map_concat_map.
    apply flat_map_ext. intros r.
    rewrite import_row_cases, parseCSVLine_export_row. cbv zeta.
    fold (rebuilt r). now destruct (lacks_required (rebuilt r)). }
  assert (Hw : (List.length
                  (fst (import_rows user_id date_parse_ok export_headers 1
                          (List.map export_row data)))
                + List.length kept = List.length data)%nat).
  { rewrite import_rows_warnings, <- Hrun, Nat.add_comm.
    rewrite rows_partition. apply length_map. }
  unfold outcome. rewrite handleImport_cases. cbv zeta.
  unfold header_names, data_lines. rewrite L.
  change (parse_headers (hd [] (join [comma] export_headers
                                :: List.map export_row data)))
    with export_headers.
  change (missingHeaders export_headers) with (@nil jsstring).
  simpl tl. cbv iota.
  destruct data as [|r data].
  - split; reflexivity.
  - change (Nat.ltb (List.length
                       (join [comma] export_headers
                        :: List.map export_row (r :: data))) 2)
      with false.
    cbv iota. cbn [fst snd]. rewrite Hrun. split; [|exact Hw].
    destruct kept; reflexivity.
Qed.

(** X7: an instance with two records. *)
Lemma export_then_import_witness :
  exists p1 p2,
    snd (handleImport (js "u1") (fun _ => true)
           (handleExport [row_two_sum; row_leading_space]))
    = inr [p1; p2].
Proof.
  eexists. eexists.
  refine (eq_trans
            (proj1 (export_then_import (js "u1") (fun _ => true)
                      [row_two_sum; row_leading_space] _)) _).
  - intros r header [<-|[<-|[]]] Hh; unfold export_headers in Hh;
      simpl in Hh;
      destruct Hh as [<-|[<-|[<-|[<-|[<-|[<-|[<-|[<-|[<-|[<-|[]]]]]]]]]]];
      reflexivity.
  - reflexivity.
Defined.

(** ** The row numbers of the warnings *)

Section WarningRows.

Variable user_id : jsstring.
Variable date_parse_ok : jsstring -> bool.
Variable headers : list jsstring.

Lemma import_rows_warning_rows (lines : list jsstring) :
  forall i n,
    In n (fst (import_rows user_id date_parse_ok headers i lines))
    <-> exists k line,
          nth_error lines k = Some line
          /\ skipped user_id date_parse_ok headers line
          /\ n = (i + k + 1)%nat.
Proof.
  unfold skipped.
  induction lines as [|l rest IH]; intros i n; simpl.
  - split; [contradiction|]. intros (k & line & Hk & _). now destruct k.
  - specialize (IH (S i) n).
    destruct (import_rows user_id date_parse_ok headers (S i) rest)
      as [warnings problems].
    simpl in IH.
    assert (Tail : In n warnings
                   <-> exists k line,
                         nth_error (l :: rest) (S k) = Some line
                         /\ import_row user_id date_parse_ok headers line
                            = RowSkipped
                         /\ n = (i + S k + 1)%nat).
    { rewrite IH. split; intros (k & line & Hk & Hs & ->);
        exists k, line; repeat split; try assumption; lia. }
    destruct (import_row user_id date_parse_ok headers l) eqn:E; simpl.
    + rewrite Tail. split.
      * intros (k & line & H). now exists (S k), line.
      * intros (k & line & Hk & Hs & ->). destruct k as [|k].
        -- injection Hk as <-. congruence.
        -- now exists k, line.
    + rewrite Tail. split.
      * intros [<-|(k & line & H)].
        -- exists 0%nat, l. repeat split; [exact E | lia].
        -- now exists (S k), line.
      * intros (k & line & Hk & Hs & ->). destruct k as [|k].
        -- left. lia.
        -- right. now exists k, line.
    + rewrite Tail. split.
      * intros (k & line & H). now exists (S k), line.
      * intros (k & line & Hk & Hs & ->). destruct k as [|k].
        -- injection Hk as <-. congruence.
        -- now exists k, line.
Qed.

Lemma import_rows_warnings_sorted (lines : list jsstring) :
  forall i,
    StronglySorted lt (fst (import_rows user_id date_parse_ok headers i lines)).
Proof.
  induction lines as [|l rest IH]; intros i; simpl; [constructor|].
  pose proof (import_rows_warning_rows rest (S i)) as W.
  specialize (IH (S i)).
  destruct (import_rows user_id date_parse_ok headers (S i) rest)
    as [warnings problems].
  simpl in IH, W.
  destruct (import_row user_id date_parse_ok headers l); simpl;
    try exact IH.
  constructor; [exact IH|]. apply Forall_forall. intros n Hn.
  apply W in Hn as (k & line & _ & _ & ->). lia.
Qed.

End WarningRows.

(** X8.  Once the header line is accepted, the warnings of an import name
    exactly the skipped rows, in increasing order, each by its position
    counted from 1 among the non-blank lines of the file (the header line
    is row 1; blank lines are not counted). *)
Theorem warnings_name_skipped_rows (user_id : jsstring)
    (date_parse_ok : jsstring -> bool) (text : jsstring) :
  (2 <= List.length (nonblank_lines text))%nat ->
  missingHeaders (header_names text) = [] ->
  let warnings := fst (handleImport user_id date_parse_ok text) in
  StronglySorted lt warnings
  /\ forall n,
       In n warnings
       <-> (2 <= n)%nat
           /\ exists line,
                nth_error (nonblank_lines text) (n - 1) = Some line
                /\ skipped user_id date_parse_ok (header_names text) line.
Proof.
  intros Hlen Hmiss warnings.
  assert (E : warnings
              = fst (import_rows user_id date_parse_ok (header_names text) 1
                       (data_lines text))).
  { unfold warnings. rewrite handleImport_cases. cbv zeta.
    rewrite Hmiss. apply Nat.ltb_ge in Hlen. now rewrite Hlen. }
  rewrite E. split; [apply import_rows_warnings_sorted|].
  intros n. rewrite import_rows_warning_rows. unfold data_lines.
  destruct (nonblank_lines text) as [|h rest]; [simpl in Hlen; lia|].
  simpl tl. split.
  - intros (k & line & Hk & Hs & ->). split; [lia|].
    exists line. split; [|exact Hs].
    replace (1 + k + 1 - 1)%nat with (S k) by lia. exact Hk.
  - intros (Hn & line & Hk & Hs). exists (n - 2)%nat, line.
    repeat split; [|exact Hs|lia].
    replace (n - 1)%nat with (S (n - 2)) in Hk by lia. exact Hk.
Qed.

(** X8: an instance. *)
Lemma warnings_name_skipped_rows_witness :
  fst (handleImport (js "u1") (fun _ => true) text_invalid_then_valid)
  = [2%nat]
  /\ StronglySorted lt
       (fst (handleImport (js "u1") (fun _ => true) text_invalid_then_valid)).
Proof.
  split; [reflexivity|].
  refine (proj1 (warnings_name_skipped_rows (js "u1") (fun _ => true)
                   text_invalid_then_valid _ eq_refl)).
  vm_compute. repeat constructor.
Defined.

(** ** Windows line endings *)

Lemma trim_start_snoc (s : jsstring) (c : N) :
  is_white_space c = true ->
  trim_start (s ++ [c]) = if blank s then [] else trim_start s ++ [c].
Proof.
  intros Hc. induction s as [|x s IH]; simpl.
  - now rewrite Hc.
  - unfold blank in *. simpl. destruct (is_white_space x); simpl.
    + exact IH.
    + reflexivity.
Qed.

Lemma trim_snoc (s : jsstring) (c : N) :
  is_white_space c = true -> trim (s ++ [c]) = trim s.
Proof.
  intros Hc. unfold trim. rewrite trim_start_snoc by exact Hc.
  destruct (blank s) eqn:B.
  - apply trim_blank in B. unfold trim in B.
    apply (f_equal (@rev N)) in B. rewrite rev_involutive in B.
    simpl in B. now rewrite B.
  - rewrite rev_app_distr. simpl. now rewrite Hc.
Qed.

Lemma up_to_cr_trim (l l' : jsstring) : up_to_cr l l' -> trim l' = trim l.
Proof. intros [->| ->]; [reflexivity | now apply trim_snoc]. Qed.

Lemma split_snoc (sep c : N) (s : jsstring) :
  N.eqb c sep = false ->
  split sep (s ++ [c])
  = removelast (split sep s) ++ [last (split sep s) [] ++ [c]].
Proof.
  intros Hc. induction s as [|x s IH]; simpl.
  - now rewrite Hc.
  - rewrite IH. destruct (N.eqb x sep).
    + destruct (split sep s) eqn:Es; [now elim (split_not_nil _ _ Es)|].
      reflexivity.
    + destruct (split sep s) as [|f fs] eqn:Es;
        [now elim (split_not_nil _ _ Es)|].
      destruct fs as [|g fs]; reflexivity.
Qed.

Lemma parse_loop_snoc (c : N) (line : jsstring) :
  N.eqb c dquote = false -> N.eqb c comma = false ->
  forall result current inQuotes,
    parse_loop (line ++ [c]) result current inQuotes
    = removelast (parse_loop line result current inQuotes)
      ++ [last (parse_loop line result current inQuotes) [] ++ [c]].
Proof.
  intros Hq Hc.
  assert (Base : forall result current inQuotes,
             parse_loop [c] result current inQuotes
             = removelast (result ++ [current])
               ++ [last (result ++ [current]) [] ++ [c]]).
  { intros result current inQuotes. simpl. rewrite Hq, Hc. simpl.
    now rewrite removelast_last, last_last. }
  induction line as [|x rest IH1 IH2] using list_ind_pairs;
    intros result current inQuotes.
  - apply Base.
  - simpl app. simpl parse_loop. destruct (N.eqb x dquote).
    + destruct rest as [|next rest'].
      * simpl app. cbv beta iota. rewrite Hq, andb_false_r. apply Base.
      * simpl app. cbv beta iota.
        destruct (inQuotes && N.eqb next dquote).
        -- apply (IH2 next rest' eq_refl).
        -- apply (IH1 result current (negb inQuotes)).
    + destruct (N.eqb x comma && negb inQuotes); apply IH1.
Qed.

Lemma value_at_snoc (fields : list jsstring) (c : N) (i : nat) :
  fields <> [] -> is_white_space c = true ->
  value_at (removelast fields ++ [last fields [] ++ [c]]) i
  = value_at fields i.
Proof.
  intros Hne Hc.
  rewrite (app_removelast_last [] Hne) at 3.
  unfold value_at.
  destruct (Nat.lt_ge_cases i (List.length (removelast fields))) as [Hi|Hi].
  - now rewrite !nth_error_app1 by exact Hi.
  - rewrite !nth_error_app2 by exact Hi.
    assert (S : forall (k : nat) (a b : jsstring),
               trim a = trim b ->
               match nth_error [a] k with Some v => trim v | None => [] end
               = match nth_error [b] k with Some v => trim v | None => [] end).
    { intros [|[|k]] a b E; simpl; [exact E | reflexivity | reflexivity]. }
    apply S. now apply trim_snoc.
Qed.

Lemma forEach_header_ext (date_parse_ok : jsstring -> bool)
    (v1 v2 : list jsstring) :
  (forall i, value_at v1 i = value_at v2 i) ->
  forall headers index problem,
    forEach_header date_parse_ok headers index v1 problem
    = forEach_header date_parse_ok headers index v2 problem.
Proof.
  intros H. induction headers as [|h rest IH]; intros index problem; simpl.
  - reflexivity.
  - now rewrite H, IH.
Qed.

Lemma import_row_up_to_cr (user_id : jsstring)
    (date_parse_ok : jsstring -> bool) (headers : list jsstring)
    (l l' : jsstring) :
  up_to_cr l l' ->
  import_row user_id date_parse_ok headers l'
  = import_row user_id date_parse_ok headers l.
Proof.
  intros [->| ->]; [reflexivity|].
  rewrite !import_row_cases. cbv zeta.
  assert (E : build_problem user_id date_parse_ok headers
                (parseCSVLine (l ++ [cr]))
              = build_problem user_id date_parse_ok headers (parseCSVLine l)).
  { unfold build_problem. apply forEach_header_ext. intros i.
    unfold parseCSVLine. rewrite parse_loop_snoc by reflexivity.
    apply value_at_snoc; [|reflexivity].
    intros E. pose proof (parseCSVLine_length l) as L.
    unfold parseCSVLine in L. rewrite E in L. discriminate. }
  now rewrite E.
Qed.

Lemma parse_headers_up_to_cr (l l' : jsstring) :
  up_to_cr l l' -> parse_headers l' = parse_headers l.
Proof.
  intros [->| ->]; [reflexivity|].
  unfold parse_headers. rewrite split_snoc by reflexivity.
  pose proof (split_not_nil comma l) as Hne.
  rewrite (app_removelast_last [] Hne) at 3.
  rewrite !map_app. simpl. now rewrite trim_snoc.
Qed.

Lemma import_rows_up_to_cr (user_id : jsstring)
    (date_parse_ok : jsstring -> bool) (headers : list jsstring)
    (lines lines' : list jsstring) :
  Forall2 up_to_cr lines lines' ->
  forall i,
    import_rows user_id date_parse_ok headers i lines'
    = import_rows user_id date_parse_ok headers i lines.
Proof.
  induction 1 as [|l l' lines lines' Hl _ IH]; intros i; simpl.
  - reflexivity.
  - now rewrite IH, (import_row_up_to_cr user_id date_parse_ok headers l l' Hl).
Qed.

Lemma split_crlf (text : jsstring) :
  Forall2 up_to_cr (split newline text) (split newline (crlf text)).
Proof.
  induction text as [|c text IH]; simpl.
  - constructor; [now left | constructor].
  - destruct (N.eqb c newline) eqn:E; simpl.
    + constructor; [now right | exact IH].
    + rewrite E.
      destruct (split newline text) as [|f fs] eqn:Es;
        [now elim (split_not_nil _ _ Es)|].
      inversion IH as [|? f' ? fs' Hf Hfs]; subst.
      constructor; [|exact Hfs].
      destruct Hf as [->| ->]; [now left | now right].
Qed.

Lemma nonblank_lines_crlf (text : jsstring) :
  Forall2 up_to_cr (nonblank_lines text) (nonblank_lines (crlf text)).
Proof.
  unfold nonblank_lines.
  induction (split_crlf text) as [|l l' ls ls' Hl _ IH]; simpl.
  - constructor.
  - rewrite (up_to_cr_trim l l' Hl).
    destruct (truthy (trim l)); [constructor; assumption | exact IH].
Qed.

(** X9.  Windows line endings do not matter: a text in which every
    newline is preceded by a carriage return is imported exactly as the
    text without the carriage returns (same outcome, same warnings). *)
Theorem import_ignores_carriage_returns (user_id : jsstring)
    (date_parse_ok : jsstring -> bool) (text : jsstring) :
  handleImport user_id date_parse_ok (crlf text)
  = handleImport user_id date_parse_ok text.
Proof.
  pose proof (nonblank_lines_crlf text) as H.
  unfold handleImport.
  rewrite <- (Forall2_length H).
  destruct H as [|l l' ls ls' Hl Hls]; [reflexivity|].
  simpl hd. simpl tl.
  rewrite (parse_headers_up_to_cr l l' Hl).
  now rewrite (import_rows_up_to_cr user_id date_parse_ok _ ls ls' Hls).
Qed.

(** * Further properties of the dashboard *)

Section StreakFacts.

Variable tz_offset : Z.

Lemma uniqueDates_determined (rows1 rows2 : list Dashboard.problem) :
  (forall d, solved_day tz_offset rows1 d <-> solved_day tz_offset rows2 d) ->
  Dashboard.uniqueDates tz_offset (Dashboard.solvedProblems rows1)
  = Dashboard.uniqueDates tz_offset (Dashboard.solvedProblems rows2).
Proof.
  intros H. apply descending_unique; try apply uniqueDates_sorted.
  intros d. rewrite !uniqueDates_solved_days. apply H.
Qed.

Lemma latest_solved_day (rows : list Dashboard.problem) (latest : Z)
    (rest : list Z) :
  Dashboard.uniqueDates tz_offset (Dashboard.solvedProblems rows)
  = latest :: rest ->
  solved_day tz_offset rows latest
  /\ forall d, solved_day tz_offset rows d -> (d <= latest)%Z.
Proof.
  intros E.
  pose proof (uniqueDates_sorted tz_offset (Dashboard.solvedProblems rows))
    as HS.
  rewrite E in HS. inversion HS as [|? ? _ F]; subst.
  rewrite Forall_forall in F. split.
  - apply uniqueDates_solved_days. rewrite E. now left.
  - intros d Hd. apply uniqueDates_solved_days in Hd. rewrite E in Hd.
    destruct Hd as [<-|Hd]; [lia|]. specialize (F d Hd). lia.
Qed.

Lemma consecutive_run_le (rest : list Z) :
  forall prev, (consecutive_run prev rest <= List.length rest)%nat.
Proof.
  induction rest as [|d rest IH]; intros prev; simpl; [lia|].
  destruct (Z.eqb (prev - d) 1); [|lia].
  specialize (IH d). lia.
Qed.

Lemma set_values_length (l : list Z) :
  forall seen,
    (List.length (Dashboard.set_values seen l) <= List.length l)%nat.
Proof.
  induction l as [|x l IH]; intros seen; simpl; [lia|].
  destruct (existsb (Z.eqb x) seen); simpl.
  - specialize (IH seen). lia.
  - specialize (IH (x :: seen)). lia.
Qed.

Lemma sort_insert_length {A : Type} (compare : A -> A -> Z) (x : A)
    (l : list A) :
  List.length (Dashboard.sort_insert compare x l) = S (List.length l).
Proof.
  induction l as [|y l IH]; simpl; [reflexivity|].
  destruct (Z.leb (compare x y) 0); simpl; [reflexivity | now rewrite IH].
Qed.

Lemma sort_length {A : Type} (compare : A -> A -> Z) (l : list A) :
  List.length (Dashboard.sort compare l) = List.length l.
Proof.
  induction l as [|x l IH]; simpl; [reflexivity|].
  now rewrite sort_insert_length, IH.
Qed.

Lemma uniqueDates_length (problems : list Dashboard.problem) :
  (List.length (Dashboard.uniqueDates tz_offset problems)
   <= List.length problems)%nat.
Proof.
  unfold Dashboard.uniqueDates, Dashboard.solvedDates.
  eapply Nat.le_trans; [apply set_values_length|].
  rewrite sort_length.
  induction problems as [|p l IH]; simpl; [lia|].
  rewrite length_app. destruct (Dashboard.solved_at p); simpl; lia.
Qed.

End StreakFacts.

(** X10.  The current streak depends only on which local calendar days
    are solved days: two collections with the same solved days have the
    same streak, whatever the order of their records, the number of
    records per day, and their records of other status. *)
Theorem streak_depends_on_solved_days (tz_offset : Z)
    (rows1 rows2 : list Dashboard.problem) (now : Z) :
  (forall d, solved_day tz_offset rows1 d <-> solved_day tz_offset rows2 d) ->
  Dashboard.currentStreak tz_offset rows1 now
  = Dashboard.currentStreak tz_offset rows2 now.
Proof.
  intros H. rewrite !currentStreak_streak_of.
  now rewrite (uniqueDates_determined tz_offset rows1 rows2 H).
Qed.

(** X11.  A record of status Solved dated on a local calendar day after
    today brings the current streak to 0, whatever else was solved. *)
Theorem future_solved_day_resets_streak (tz_offset : Z)
    (rows : list Dashboard.problem) (now d : Z) :
  solved_day tz_offset rows d ->
  (toDateString tz_offset now < d)%Z ->
  Dashboard.currentStreak tz_offset rows now = 0%nat.
Proof.
  intros Hd Hlt. rewrite currentStreak_streak_of.
  destruct (Dashboard.uniqueDates tz_offset (Dashboard.solvedProblems rows))
    as [|latest rest] eqn:E; [reflexivity|].
  destruct (latest_solved_day tz_offset rows latest rest E) as [_ Hmax].
  specialize (Hmax d Hd). simpl.
  destruct (Z.eqb_spec latest (toDateString tz_offset now)); [lia|].
  destruct (Z.eqb_spec latest (toDateString tz_offset now - 1)); [lia|].
  reflexivity.
Qed.

(** X12.  When no solved day lies after today, the current streak is
    positive exactly when today or yesterday is a solved day. *)
Theorem streak_positive_iff (tz_offset : Z) (rows : list Dashboard.problem)
    (now : Z) :
  (forall d, solved_day tz_offset rows d ->
             (d <= toDateString tz_offset now)%Z) ->
  (0 < Dashboard.currentStreak tz_offset rows now)%nat
  <-> solved_day tz_offset rows (toDateString tz_offset now)
      \/ solved_day tz_offset rows (toDateString tz_offset now - 1)%Z.
Proof.
  intros Hpast. rewrite currentStreak_streak_of.
  set (today := toDateString tz_offset now) in *.
  destruct (Dashboard.uniqueDates tz_offset (Dashboard.solvedProblems rows))
    as [|latest rest] eqn:E.
  - simpl. split; [lia|].
    intros [H|H]; apply uniqueDates_solved_days in H; rewrite E in H;
      contradiction.
  - destruct (latest_solved_day tz_offset rows latest rest E) as [Hl Hmax].
    simpl.
    destruct (Z.eqb_spec latest today) as [->|N1]; simpl.
    { split; [now left | lia]. }
    destruct (Z.eqb_spec latest (today - 1)) as [->|N2]; simpl.
    { split; [now right | lia]. }
    split; [lia|].
    pose proof (Hpast latest Hl) as Hle.
    intros [H|H]; apply Hmax in H; lia.
Qed.

(** X13.  Of the three figures of the dashboard, the total number of
    solved problems bounds the other two: neither the last-7-days count
    nor the current streak exceeds it. *)
Theorem totalSolved_bounds (tz_offset : Z) (rows : list Dashboard.problem)
    (now : Z) :
  (Dashboard.last7Days tz_offset rows now <= FetchStats.totalSolved rows)%nat
  /\ (Dashboard.currentStreak tz_offset rows now
      <= FetchStats.totalSolved rows)%nat.
Proof.
  unfold FetchStats.totalSolved. split.
  - unfold Dashboard.last7Days. cbv zeta. apply filter_length_le.
  - rewrite currentStreak_streak_of.
    pose proof (uniqueDates_length tz_offset (Dashboard.solvedProblems rows))
      as L.
    destruct (Dashboard.uniqueDates tz_offset (Dashboard.solvedProblems rows))
      as [|latest rest]; simpl in *; [lia|].
    pose proof (consecutive_run_le rest latest).
    destruct (_ || _); lia.
Qed.

(** X10: an instance, the same records in reverse order. *)
Lemma streak_depends_on_solved_days_witness :
  Dashboard.currentStreak 3600000 three_days_running 928800000
  = Dashboard.currentStreak 3600000 (rev three_days_running) 928800000.
Proof.
  apply streak_depends_on_solved_days.
  intros d. unfold solved_day.
  split; intros (p & t & Hp & H); exists p, t; (split; [|exact H]);
    simpl in *; tauto.
Defined.

(** X11: an instance, solved today (day 10) and two days later. *)
Lemma future_solved_day_resets_streak_witness :
  solved_day 3600000 [solved_at_noon 10; solved_at_noon 12] 12%Z
  /\ Dashboard.currentStreak 3600000 [solved_at_noon 10; solved_at_noon 12]
       928800000 = 0%nat.
Proof.
  assert (H : solved_day 3600000 [solved_at_noon 10; solved_at_noon 12] 12%Z).
  { exists (solved_at_noon 12), (12 * 86400000 + 43200000)%Z.
    repeat split. right; left; reflexivity. }
  split; [exact H|].
  apply (future_solved_day_resets_streak 3600000
           [solved_at_noon 10; solved_at_noon 12] 928800000 12 H).
  reflexivity.
Defined.

(** X12: an instance. *)
Lemma streak_positive_iff_witness :
  (0 < Dashboard.currentStreak 3600000 three_days_running 928800000)%nat
  <-> solved_day 3600000 three_days_running
        (toDateString 3600000 928800000)
      \/ solved_day 3600000 three_days_running
           (toDateString 3600000 928800000 - 1)%Z.
Proof.
  apply streak_positive_iff.
  intros d (p & t & Hp & _ & Ht & <-).
  destruct Hp as [<-|[<-|[<-|[]]]]; injection Ht as <-; vm_compute;
    intros H; discriminate H.
Defined.

(** * Further properties of the analytics page *)

Lemma isoDate_days_before (now : Z) (i : nat) :
  isoDate (now - Z.of_nat i * msPerDay) = (isoDate now - Z.of_nat i)%Z.
Proof.
  unfold isoDate, msPerDay.
  replace (now - Z.of_nat i * 86400000)%Z
    with (now + (- Z.of_nat i) * 86400000)%Z by lia.
  rewrite Z.div_add by lia. lia.
Qed.

(** X14.  The 30 entries of the daily activity series are labelled with
    30 consecutive UTC calendar days ending with the UTC date of [now],
    while each entry counts the records solved on a local calendar day:
    the day counted lies as many days from the label as the local date of
    [now] lies from its UTC date.  So whenever the local date differs
    from the UTC date, every entry shows the count of a neighbouring day
    of its label. *)
Theorem activity_labels (tz_offset : Z) (problems : list Analytics.problem)
    (now : Z) :
  let series := Analytics.activityData tz_offset problems now in
  let shift := (toDateString tz_offset now - isoDate now)%Z in
  List.map Analytics.date series
  = List.map (fun i => (isoDate now - Z.of_nat i)%Z) (rev (seq 0 30))
  /\ Forall (fun entry =>
               Analytics.solved entry
               = List.length
                   (filter (Analytics.solved_on tz_offset
                              (Analytics.date entry + shift)) problems))
            series.
Proof.
  intros series shift.
  assert (E : series
              = List.map
                  (fun i =>
                     {| Analytics.date := (isoDate now - Z.of_nat i)%Z;
                        Analytics.solved :=
                          List.length
                            (filter (Analytics.solved_on tz_offset
                                       (toDateString tz_offset now
                                        - Z.of_nat i)) problems) |})
                  (rev (seq 0 30))).
  { unfold series, Analytics.activityData. rewrite activity_loop_map.
    apply map_ext. intros i.
    now rewrite activity_entry_spec, isoDate_days_before. }
  rewrite E. split.
  - rewrite map_map. reflexivity.
  - apply Forall_forall. intros entry He.
    apply in_map_iff in He as (i & <- & _). simpl.
    unfold shift. f_equal. f_equal. f_equal. lia.
Qed.

(** ** The difficulty chart *)

Lemma with_difficulty_sum (problems : list Charts.problem) :
  (Charts.with_difficulty (js "Easy") problems
   + Charts.with_difficulty (js "Medium") problems
   + Charts.with_difficulty (js "Hard") problems
   = List.length
       (filter (fun p => array_includes [js "Easy"; js "Medium"; js "Hard"]
                           (Charts.difficulty p)) problems))%nat.
Proof.
  unfold Charts.with_difficulty.
  induction problems as [|p l IH]; [reflexivity|].
  cbn [filter].
  change (array_includes [js "Easy"; js "Medium"; js "Hard"]
            (Charts.difficulty p))
    with (str_eqb (Charts.difficulty p) (js "Easy")
          || (str_eqb (Charts.difficulty p) (js "Medium")
              || (str_eqb (Charts.difficulty p) (js "Hard") || false))).
  assert (X : forall a b, a <> b ->
                str_eqb (Charts.difficulty p) a = true ->
                str_eqb (Charts.difficulty p) b = false).
  { intros a b Hab Ha. apply str_eqb_eq in Ha. apply str_eqb_neq. congruence. }
  assert (N12 : js "Easy" <> js "Medium") by discriminate.
  assert (N13 : js "Easy" <> js "Hard") by discriminate.
  assert (N23 : js "Medium" <> js "Hard") by discriminate.
  pose proof (X _ _ N12) as X12. pose proof (X _ _ N13) as X13.
  pose proof (X _ _ N23) as X23.
  destruct (str_eqb (Charts.difficulty p) (js "Easy"));
    destruct (str_eqb (Charts.difficulty p) (js "Medium"));
    destruct (str_eqb (Charts.difficulty p) (js "Hard"));
    try (specialize (X12 eq_refl); discriminate);
    try (specialize (X13 eq_refl); discriminate);
    try (specialize (X23 eq_refl); discriminate);
    cbn [orb List.length]; lia.
Qed.

(** X15.  The difficulty chart has no empty slice; a difficulty among
    Easy, Medium and Hard has a slice exactly when some record has it,
    and the slice then counts those records; the slices add up to the
    number of records whose difficulty is one of the three, hence to the
    number of records when the table's constraint on difficulty holds. *)
Theorem difficultyData_slices (problems : list Charts.problem) :
  let slices := Charts.difficultyData problems in
  Forall (fun item =>
            (0 < Charts.value item)%nat
            /\ In (Charts.name item) [js "Easy"; js "Medium"; js "Hard"]
            /\ Charts.value item
               = Charts.with_difficulty (Charts.name item) problems)
         slices
  /\ (forall d, In d [js "Easy"; js "Medium"; js "Hard"] ->
        (In d (List.map Charts.name slices)
         <-> exists p, In p problems /\ Charts.difficulty p = d))
  /\ fold_right plus 0%nat (List.map Charts.value slices)
     = List.length
         (filter (fun p => array_includes [js "Easy"; js "Medium"; js "Hard"]
                             (Charts.difficulty p)) problems)
  /\ (Forall (fun p => In (Charts.difficulty p)
                          [js "Easy"; js "Medium"; js "Hard"]) problems ->
      fold_right plus 0%nat (List.map Charts.value slices)
      = List.length problems).
Proof.
  intros slices.
  assert (Hpos : forall d,
             (0 < Charts.with_difficulty d problems)%nat
             <-> exists p, In p problems /\ Charts.difficulty p = d).
  { intros d. unfold Charts.with_difficulty. split.
    - intros H.
      destruct (filter (fun p => str_eqb (Charts.difficulty p) d) problems)
        as [|p l] eqn:E; [simpl in H; lia|].
      assert (Hp : In p (filter (fun p => str_eqb (Charts.difficulty p) d)
                           problems)) by (rewrite E; now left).
      apply filter_In in Hp as [Hp Hd]. apply str_eqb_eq in Hd. now exists p.
    - intros (p & Hp & Hd).
      assert (Hin : In p (filter (fun p => str_eqb (Charts.difficulty p) d)
                            problems)).
      { apply filter_In. split; [exact Hp | now apply str_eqb_eq]. }
      destruct (filter _ problems); [contradiction | simpl; lia]. }
  assert (Hsum : fold_right plus 0%nat (List.map Charts.value slices)
                 = List.length
                     (filter (fun p => array_includes
                                         [js "Easy"; js "Medium"; js "Hard"]
                                         (Charts.difficulty p)) problems)).
  { rewrite <- with_difficulty_sum. unfold slices, Charts.difficultyData.
    cbn [filter Charts.value].
    destruct (Charts.with_difficulty (js "Easy") problems);
      destruct (Charts.with_difficulty (js "Medium") problems);
      destruct (Charts.with_difficulty (js "Hard") problems);
      simpl; lia. }
  split; [|split; [|split; [exact Hsum|]]].
  - apply Forall_forall. intros item Hi.
    unfold slices, Charts.difficultyData in Hi.
    apply filter_In in Hi as [Hi Hv]. apply Nat.ltb_lt in Hv.
    split; [exact Hv|].
    destruct Hi as [<-|[<-|[<-|[]]]]; simpl; tauto.
  - intros d Hd. rewrite <- Hpos. unfold slices, Charts.difficultyData.
    rewrite in_map_iff. split.
    + intros (item & <- & Hi). apply filter_In in Hi as [Hi Hv].
      apply Nat.ltb_lt in Hv.
      destruct Hi as [<-|[<-|[<-|[]]]]; exact Hv.
    + intros Hv. apply Nat.ltb_lt in Hv.
      destruct Hd as [<-|[<-|[<-|[]]]].
      * eexists. split; [|apply filter_In; split; [left; reflexivity|]];
          [reflexivity | exact Hv].
      * eexists. split;
          [|apply filter_In; split; [right; left; reflexivity|]];
          [reflexivity | exact Hv].
      * eexists. split;
          [|apply filter_In; split; [right; right; left; reflexivity|]];
          [reflexivity | exact Hv].
  - intros Hall. rewrite Hsum. f_equal. apply filter_all_on.
    rewrite Forall_forall in Hall. intros p Hp.
    apply array_includes_In. now apply Hall.
Qed.

(** X15: an instance. *)
Lemma difficultyData_slices_witness :
  let problems :=
    [ {| Charts.difficulty := js "Easy"; Charts.topic := js "Arrays";
         Charts.status := js "Solved"; Charts.solved_at := Some 0%Z;
         Charts.created_at := 0%Z |};
      {| Charts.difficulty := js "Hard"; Charts.topic := js "Trees";
         Charts.status := js "Todo"; Charts.solved_at := None;
         Charts.created_at := 0%Z |} ] in
  fold_right plus 0%nat
    (List.map Charts.value (Charts.difficultyData problems))
  = List.length problems.
Proof.
  intros problems.
  apply (proj2 (proj2 (proj2 (difficultyData_slices problems)))).
  repeat constructor; simpl; tauto.
Defined.

(** * Properties of the list page *)

Lemma set_of_strings_In (x : jsstring) (l : list jsstring) :
  forall seen,
    In x (set_of_strings seen l) <-> In x l /\ ~ In x seen.
Proof.
  induction l as [|y l IH]; intros seen; simpl; [tauto|].
  destruct (array_includes seen y) eqn:E.
  - rewrite IH. apply array_includes_In in E. intuition congruence.
  - simpl. rewrite IH. simpl.
    assert (Hy : ~ In y seen).
    { intros Hin. apply array_includes_In in Hin. congruence. }
    assert (D : y = x \/ y <> x).
    { destruct (str_eqb y x) eqn:Exy;
        [left; now apply str_eqb_eq | right; now apply str_eqb_neq]. }
    destruct D as [->|Hne]; intuition congruence.
Qed.

Lemma set_of_strings_NoDup (l : list jsstring) :
  forall seen, NoDup (set_of_strings seen l).
Proof.
  induction l as [|y l IH]; intros seen; simpl; [constructor|].
  destruct (array_includes seen y); [apply IH|].
  constructor; [|apply IH].
  intros Hin. apply set_of_strings_In in Hin as [_ Hn]. apply Hn. now left.
Qed.

(** X16.  The topics offered by the topic selector are the topics of the
    listed problems, each exactly once. *)
Theorem uniqueTopics_distinct (problems : list ProblemsPage.problem) :
  NoDup (ProblemsPage.uniqueTopics problems)
  /\ forall t,
       In t (ProblemsPage.uniqueTopics problems)
       <-> exists p, In p problems /\ ProblemsPage.topic p = t.
Proof.
  unfold ProblemsPage.uniqueTopics. split; [apply set_of_strings_NoDup|].
  intros t. rewrite set_of_strings_In, in_map_iff. simpl.
  split.
  - intros [(p & E & Hp) _]. now exists p.
  - intros (p & Hp & E). split; [now exists p | tauto].
Qed.


Lemma str_includes_empty (hay : jsstring) : str_includes hay [] = true.
Proof. destruct hay; reflexivity. Qed.

Section FilterFacts.

Variable toLowerCase : jsstring -> jsstring.
Hypothesis toLowerCase_empty : toLowerCase [] = [].

Lemma filteredProblems_empty_search (problems : list ProblemsPage.problem)
    (difficultyFilter statusFilter topicFilter : jsstring) :
  ProblemsPage.filteredProblems toLowerCase problems [] difficultyFilter
    statusFilter topicFilter
  = filter (fun p =>
              (str_eqb difficultyFilter (js "all")
               || str_eqb (ProblemsPage.difficulty p) difficultyFilter)
              && (str_eqb statusFilter (js "all")
                  || str_eqb (ProblemsPage.status p) statusFilter)
              && (str_eqb topicFilter (js "all")
                  || str_eqb (ProblemsPage.topic p) topicFilter))
           problems.
Proof.
  unfold ProblemsPage.filteredProblems. apply filter_ext. intros p.
  cbv zeta. rewrite toLowerCase_empty, !str_includes_empty. reflexivity.
Qed.

End FilterFacts.

(** X18.  With an empty search box and the three selectors on their
    value all, the list shows every problem. *)
Theorem filteredProblems_default (toLowerCase : jsstring -> jsstring)
    (problems : list ProblemsPage.problem) :
  toLowerCase [] = [] ->
  ProblemsPage.filteredProblems toLowerCase problems [] (js "all") (js "all")
    (js "all")
  = problems.
Proof.
  intros H. rewrite filteredProblems_empty_search by exact H.
  apply filter_all_on. intros p _. reflexivity.
Qed.

(** X19.  Every topic offered by the topic selector lists at least one
    problem (empty search box, other selectors on all); unless the topic
    is itself named all, it lists exactly the problems of that topic. *)
Theorem topic_option_lists_problems (toLowerCase : jsstring -> jsstring)
    (problems : list ProblemsPage.problem) (t : jsstring) :
  toLowerCase [] = [] ->
  In t (ProblemsPage.uniqueTopics problems) ->
  let listed :=
    ProblemsPage.filteredProblems toLowerCase problems [] (js "all")
      (js "all") t in
  listed <> []
  /\ (t <> js "all" ->
      listed = filter (fun p => str_eqb (ProblemsPage.topic p) t) problems)
  /\ (t = js "all" -> listed = problems).
Proof.
  intros H Ht listed. unfold listed.
  rewrite filteredProblems_empty_search by exact H.
  unfold ProblemsPage.uniqueTopics in Ht.
  apply set_of_strings_In in Ht as [Ht _].
  apply in_map_iff in Ht as (p & Hp & Hin).
  split; [|split].
  - intros E.
    assert (Hf : In p (filter
                         (fun p =>
                            (str_eqb (js "all") (js "all")
                             || str_eqb (ProblemsPage.difficulty p) (js "all"))
                            && (str_eqb (js "all") (js "all")
                                || str_eqb (ProblemsPage.status p) (js "all"))
                            && (str_eqb t (js "all")
                                || str_eqb (ProblemsPage.topic p) t))
                         problems)).
    { apply filter_In. split; [exact Hin|].
      rewrite Hp, !str_eqb_refl, orb_true_r. reflexivity. }
    rewrite E in Hf. contradiction.
  - intros Hne. apply filter_ext. intros q.
    apply str_eqb_neq in Hne. rewrite Hne. reflexivity.
  - intros ->. apply filter_all_on. intros q _. reflexivity.
Qed.


(** X18: an instance, with a [toLowerCase] that changes nothing. *)
Lemma filteredProblems_default_witness :
  ProblemsPage.filteredProblems (fun s => s) two_listed [] (js "all")
    (js "all") (js "all")
  = two_listed.
Proof.
  exact (filteredProblems_default (fun s => s) two_listed eq_refl).
Defined.

(** X19: an instance. *)
Lemma topic_option_lists_problems_witness :
  In (js "Trees") (ProblemsPage.uniqueTopics two_listed)
  /\ ProblemsPage.filteredProblems (fun s => s) two_listed [] (js "all")
       (js "all") (js "Trees")
     <> [].
Proof.
  assert (H : In (js "Trees") (ProblemsPage.uniqueTopics two_listed)).
  { right; left; reflexivity. }
  split; [exact H|].
  exact (proj1 (topic_option_lists_problems (fun s => s) two_listed
                  (js "Trees") eq_refl H)).
Defined.

(** * Properties of the topic chart *)

Section SortFacts.

Context {A : Type}.
Variable key : A -> Z.
Variable compare : A -> A -> Z.

(** The comparator orders by decreasing key. *)
Hypothesis compare_key :
  forall x y, Z.leb (compare x y) 0 = Z.leb (key y) (key x).

Lemma sort_insert_perm (x : A) (l : list A) :
  Permutation (Dashboard.sort_insert compare x l) (x :: l).
Proof.
  induction l as [|y l IH]; simpl; [reflexivity|].
  destruct (Z.leb (compare x y) 0); [reflexivity|].
  rewrite IH. apply perm_swap.
Qed.

Lemma sort_perm (l : list A) : Permutation (Dashboard.sort compare l) l.
Proof.
  induction l as [|x l IH]; simpl; [reflexivity|].
  rewrite sort_insert_perm. now constructor.
Qed.

Lemma sort_insert_by_key (x : A) (l : list A) :
  StronglySorted (fun a b => (key b <= key a)%Z) l ->
  StronglySorted (fun a b => (key b <= key a)%Z)
                 (Dashboard.sort_insert compare x l).
Proof.
  induction 1 as [|y l Hl IH Hy]; simpl.
  - repeat constructor.
  - rewrite compare_key. destruct (Z.leb_spec (key y) (key x)) as [Hle|Hlt].
    + constructor; [now constructor|].
      constructor; [exact Hle|].
      eapply Forall_impl; [|exact Hy]. simpl. intros; lia.
    + constructor; [exact IH|].
      apply Forall_forall. intros z Hz.
      apply (Permutation_in _ (sort_insert_perm x l)) in Hz.
      destruct Hz as [<-|Hz]; [lia|].
      rewrite Forall_forall in Hy. now apply Hy.
Qed.

Lemma sort_by_key (l : list A) :
  StronglySorted (fun a b => (key b <= key a)%Z) (Dashboard.sort compare l).
Proof.
  induction l as [|x l IH]; simpl; [constructor|].
  now apply sort_insert_by_key.
Qed.

End SortFacts.

Lemma filter_partition_perm {A : Type} (f g : A -> bool) (l : list A) :
  (forall x, g x = negb (f x)) ->
  Permutation (filter f l ++ filter g l) l.
Proof.
  intros H. induction l as [|x l IH]; simpl; [reflexivity|].
  rewrite H. destruct (f x); simpl.
  - now constructor.
  - rewrite <- Permutation_middle. now constructor.
Qed.

Lemma entries_perm (acc : TopicChart.counts) :
  Permutation (TopicChart.entries acc) acc.
Proof.
  unfold TopicChart.entries. rewrite sort_perm.
  apply filter_partition_perm. intros e.
  now destruct (TopicChart.array_index (fst e)).
Qed.

Lemma bump_count_in (acc : TopicChart.counts) (k k' : jsstring) :
  count_in (TopicChart.bump acc k) k'
  = (count_in acc k' + if str_eqb k k' then 1 else 0)%nat.
Proof.
  induction acc as [|[k0 n] acc IH]; simpl.
  - destruct (str_eqb k k'); reflexivity.
  - destruct (str_eqb k0 k) eqn:E; simpl.
    + apply str_eqb_eq in E. subst k0.
      destruct (str_eqb k k'); lia.
    + rewrite IH. destruct (str_eqb k0 k') eqn:E'; [|reflexivity].
      apply str_eqb_eq in E'. apply str_eqb_neq in E.
      destruct (str_eqb k k') eqn:E2; [|lia].
      apply str_eqb_eq in E2. congruence.
Qed.

Lemma bump_keys (acc : TopicChart.counts) (k k' : jsstring) :
  In k' (List.map fst (TopicChart.bump acc k))
  <-> k' = k \/ In k' (List.map fst acc).
Proof.
  induction acc as [|[k0 n] acc IH]; simpl.
  - intuition.
  - destruct (str_eqb k0 k) eqn:E; simpl.
    + apply str_eqb_eq in E. subst k0. intuition.
    + rewrite IH. intuition.
Qed.

Lemma bump_NoDup (acc : TopicChart.counts) (k : jsstring) :
  NoDup (List.map fst acc) -> NoDup (List.map fst (TopicChart.bump acc k)).
Proof.
  induction acc as [|[k0 n] acc IH]; simpl; intros H.
  - repeat constructor. intros [].
  - inversion H as [|? ? Hk0 Hacc]; subst.
    destruct (str_eqb k0 k) eqn:E; simpl.
    + now constructor.
    + constructor; [|now apply IH].
      rewrite bump_keys. intros [->|Hin]; [|contradiction].
      now rewrite str_eqb_refl in E.
Qed.

Lemma count_in_entry (acc : TopicChart.counts) (k : jsstring) (n : nat) :
  NoDup (List.map fst acc) -> In (k, n) acc -> count_in acc k = n.
Proof.
  induction acc as [|[k0 m] acc IH]; simpl; intros Hnd Hin; [contradiction|].
  inversion Hnd as [|? ? Hk0 Hacc]; subst.
  destruct Hin as [[= -> ->]|Hin].
  - now rewrite str_eqb_refl.
  - destruct (str_eqb k0 k) eqn:E; [|now apply IH].
    apply str_eqb_eq in E. subst k0. exfalso. apply Hk0.
    apply in_map_iff. now exists (k, n).
Qed.

(** The accumulator after the [reduce]. *)
Lemma reduce_counts (problems : list Charts.problem) :
  forall acc,
    NoDup (List.map fst acc) ->
    let final :=
      fold_left (fun acc problem =>
                   TopicChart.bump acc (Charts.topic problem))
                problems acc in
    NoDup (List.map fst final)
    /\ (forall k, count_in final k
                  = (count_in acc k + with_topic k problems)%nat)
    /\ (forall k, In k (List.map fst final)
                  <-> In k (List.map fst acc)
                      \/ exists p, In p problems /\ Charts.topic p = k).
Proof.
  unfold with_topic.
  induction problems as [|p l IH]; intros acc Hnd; simpl.
  - split; [exact Hnd|]. split.
    + intros k. lia.
    + intros k. split; [tauto | intros [H|(p & [] & _)]; exact H].
  - destruct (IH (TopicChart.bump acc (Charts.topic p))
                 (bump_NoDup acc (Charts.topic p) Hnd)) as (N & C & K).
    split; [exact N|]. split.
    + intros k. rewrite C, bump_count_in.
      destruct (str_eqb (Charts.topic p) k); simpl; lia.
    + intros k. rewrite K, bump_keys. split.
      * intros [[->|H]|(q & Hq & E)];
          [right; exists p; tauto | now left | right; exists q; tauto].
      * intros [H|(q & [<-|Hq] & E)];
          [left; now right | left; left; now symmetry
          | right; now exists q].
Qed.

Lemma StronglySorted_app_inv {A : Type} (R : A -> A -> Prop)
    (l1 l2 : list A) :
  StronglySorted R (l1 ++ l2) ->
  StronglySorted R l1 /\ forall x y, In x l1 -> In y l2 -> R x y.
Proof.
  induction l1 as [|a l1 IH]; simpl; intros H.
  - split; [constructor | contradiction].
  - inversion H as [|? ? Hs Hf]; subst. destruct (IH Hs) as [S1 C].
    rewrite Forall_forall in Hf. split.
    + constructor; [exact S1|]. apply Forall_forall. intros x Hx.
      apply Hf. apply in_or_app. now left.
    + intros x y [->|Hx] Hy; [|now apply C].
      apply Hf. apply in_or_app. now right.
Qed.

Lemma StronglySorted_weaken {A : Type} (R R' : A -> A -> Prop) (l : list A) :
  (forall a b, R a b -> R' a b) -> StronglySorted R l -> StronglySorted R' l.
Proof.
  intros H. induction 1 as [|a l Hs IH Hf]; constructor; [exact IH|].
  eapply Forall_impl; [|exact Hf]. intros b. apply H.
Qed.

Lemma with_topic_positive (t : jsstring) (problems : list Charts.problem) :
  (exists p, In p problems /\ Charts.topic p = t) <->
  (0 < with_topic t problems)%nat.
Proof.
  unfold with_topic. split.
  - intros (p & Hp & E).
    assert (Hin : In p (filter (fun p => str_eqb (Charts.topic p) t)
                          problems)).
    { apply filter_In. split; [exact Hp | now apply str_eqb_eq]. }
    destruct (filter _ problems); [contradiction | simpl; lia].
  - intros H.
    destruct (filter (fun p => str_eqb (Charts.topic p) t) problems)
      as [|p l] eqn:E; [simpl in H; lia|].
    assert (Hp : In p (filter (fun p => str_eqb (Charts.topic p) t)
                         problems)) by (rewrite E; now left).
    apply filter_In in Hp as [Hp Ht]. apply str_eqb_eq in Ht. now exists p.
Qed.

(** X20.  For records none of whose topics names a property inherited
    from [Object.prototype]: the topic chart has at most 8 bars, of
    distinct topics; the bar of a topic counts the records of that topic,
    at least one; the bars are in order of decreasing count; and a topic
    of some record is left out only when the chart is full, with no more
    records than any topic shown. *)
Theorem topicData_top_eight (problems : list Charts.problem) :
  Forall (fun p => ~ In (Charts.topic p) TopicChart.object_prototype_names)
         problems ->
  let chart := TopicChart.topicData problems in
  (List.length chart <= 8)%nat
  /\ NoDup (List.map TopicChart.topic chart)
  /\ Forall (fun bar =>
               TopicChart.count bar
               = with_topic (TopicChart.topic bar) problems
               /\ (0 < TopicChart.count bar)%nat)
            chart
  /\ StronglySorted
       (fun a b => (TopicChart.count b <= TopicChart.count a)%nat) chart
  /\ forall t,
       (0 < with_topic t problems)%nat ->
       ~ In t (List.map TopicChart.topic chart) ->
       List.length chart = 8%nat
       /\ Forall (fun bar =>
                    (with_topic t problems <= TopicChart.count bar)%nat)
                 chart.
Proof.
  intros _ chart.
  set (acc := fold_left (fun acc problem =>
                           TopicChart.bump acc (Charts.topic problem))
                        problems []).
  set (mk := fun e : jsstring * nat =>
               {| TopicChart.topic := fst e; TopicChart.count := snd e |}).
  set (key := fun bar => Z.of_nat (TopicChart.count bar)).
  set (compare := fun a b : TopicChart.TopicData =>
                    (Z.of_nat (TopicChart.count b)
                     - Z.of_nat (TopicChart.count a))%Z).
  set (L := Dashboard.sort compare (List.map mk (TopicChart.entries acc))).
  assert (Hchart : chart = firstn 8 L) by reflexivity.
  destruct (reduce_counts problems [] (NoDup_nil _)) as (Hnd & Hcount & Hkeys).
  fold acc in Hnd, Hcount, Hkeys. simpl in Hcount, Hkeys.
  assert (Hcmp : forall x y, Z.leb (compare x y) 0 = Z.leb (key y) (key x)).
  { intros x y. unfold compare, key.
    destruct (Z.leb_spec (Z.of_nat (TopicChart.count y))
                         (Z.of_nat (TopicChart.count x)));
      [apply Z.leb_le | apply Z.leb_gt]; lia. }
  assert (HP : Permutation L (List.map mk acc)).
  { unfold L. rewrite sort_perm. apply Permutation_map, entries_perm. }
  assert (HS : StronglySorted (fun a b => (key b <= key a)%Z) L).
  { apply sort_by_key. exact Hcmp. }
  assert (Hbar : forall bar, In bar L ->
             In (TopicChart.topic bar) (List.map fst acc)
             /\ TopicChart.count bar
                = with_topic (TopicChart.topic bar) problems).
  { intros bar Hb. apply (Permutation_in _ HP) in Hb.
    apply in_map_iff in Hb as ([k n] & <- & He). simpl. split.
    - apply in_map_iff. now exists (k, n).
    - rewrite <- Hcount. symmetry. now apply count_in_entry. }
  assert (HN : NoDup (List.map TopicChart.topic L)).
  { apply (Permutation_NoDup (l := List.map fst acc)); [|exact Hnd].
    symmetry. rewrite (Permutation_map TopicChart.topic HP), map_map.
    reflexivity. }
  pose proof (firstn_skipn 8 L) as Hsplit. rewrite <- Hchart in Hsplit.
  assert (Hin : forall bar, In bar chart -> In bar L).
  { intros bar Hb. rewrite <- Hsplit. apply in_or_app. now left. }
  rewrite <- Hsplit in HS. apply StronglySorted_app_inv in HS as [HS1 HS2].
  split; [|split; [|split; [|split]]].
  - rewrite Hchart. apply firstn_le_length.
  - rewrite <- Hsplit, map_app in HN. now apply NoDup_app_remove_r in HN.
  - apply Forall_forall. intros bar Hb.
    destruct (Hbar bar (Hin bar Hb)) as [Hk Hc]. split; [exact Hc|].
    rewrite Hc. apply with_topic_positive. apply Hkeys in Hk.
    destruct Hk as [[]|Hk]. exact Hk.
  - apply (StronglySorted_weaken
             (fun a b => (key b <= key a)%Z)); [|exact HS1].
    unfold key. intros a b. lia.
  - intros t Ht Hout.
    assert (Hk : In t (List.map fst acc)).
    { apply Hkeys. right. now apply with_topic_positive. }
    apply in_map_iff in Hk as ([k n] & Ek & He). simpl in Ek. subst k.
    assert (Hn : n = with_topic t problems).
    { rewrite <- Hcount. symmetry. now apply count_in_entry. }
    assert (HL : In (mk (t, n)) L).
    { apply (Permutation_in _ (Permutation_sym HP)).
      apply in_map_iff. now exists (t, n). }
    rewrite <- Hsplit in HL. apply in_app_or in HL as [HL|HL].
    { exfalso. apply Hout. apply in_map_iff. now exists (mk (t, n)). }
    split.
    + rewrite Hchart, length_firstn.
      assert (8 < List.length L)%nat; [|lia].
      destruct (Nat.le_gt_cases (List.length L) 8) as [Hle|Hgt];
        [|exact Hgt].
      rewrite (skipn_all2 _ Hle) in HL. contradiction.
    + apply Forall_forall. intros bar Hb.
      specialize (HS2 bar (mk (t, n)) Hb HL). unfold key in HS2.
      simpl in HS2. lia.
Qed.

(** X20: an instance. *)
Lemma topicData_top_eight_witness :
  let problems :=
    [ {| Charts.difficulty := js "Easy"; Charts.topic := js "Arrays";
         Charts.status := js "Solved"; Charts.solved_at := Some 0%Z;
         Charts.created_at := 0%Z |};
      {| Charts.difficulty := js "Hard"; Charts.topic := js "Trees";
         Charts.status := js "Todo"; Charts.solved_at := None;
         Charts.created_at := 0%Z |};
      {| Charts.difficulty := js "Easy"; Charts.topic := js "Trees";
         Charts.status := js "Todo"; Charts.solved_at := None;
         Charts.created_at := 0%Z |} ] in
  TopicChart.topicData problems
  = [ {| TopicChart.topic := js "Trees"; TopicChart.count := 2 |};
      {| TopicChart.topic := js "Arrays"; TopicChart.count := 1 |} ]
  /\ NoDup (List.map TopicChart.topic (TopicChart.topicData problems)).
Proof.
  intros problems. split; [reflexivity|].
  refine (proj1 (proj2 (topicData_top_eight problems _))).
  repeat constructor; intros H; vm_compute in H;
    repeat (destruct H as [H|H]; [discriminate H|]); exact H.
Defined.

(** * Rows shorter or longer than the header line *)

Lemma forEach_header_ext_upto (date_parse_ok : jsstring -> bool)
    (v1 v2 : list jsstring) :
  forall headers index problem,
    (forall i, (index <= i < index + List.length headers)%nat ->
               value_at v1 i = value_at v2 i) ->
    forEach_header date_parse_ok headers index v1 problem
    = forEach_header date_parse_ok headers index v2 problem.
Proof.
  induction headers as [|h rest IH]; intros index problem H; simpl.
  - reflexivity.
  - rewrite (H index) by (simpl; lia). apply IH.
    intros i Hi. apply H. simpl. lia.
Qed.

Lemma value_at_padded (values : list jsstring) (n i : nat) :
  value_at (values ++ repeat [] n) i = value_at values i.
Proof.
  unfold value_at.
  destruct (Nat.lt_ge_cases i (List.length values)) as [Hi|Hi].
  - now rewrite nth_error_app1.
  - rewrite nth_error_app2 by exact Hi.
    rewrite (proj2 (nth_error_None values i) Hi).
    assert (P : forall k,
               match nth_error (repeat ([] : jsstring) n) k with
               | Some v => trim v
               | None => []
               end = []).
    { intros k. destruct (nth_error _ k) as [v|] eqn:E; [|reflexivity].
      apply nth_error_In, repeat_spec in E. now subst v. }
    apply P.
Qed.

(** X21.  The number of fields of a data row need not match the number of
    headers: a row gives the same record with or without empty fields
    added at its end, and fields beyond the last header are ignored. *)
Theorem row_length_is_free (user_id : jsstring)
    (date_parse_ok : jsstring -> bool) (headers values : list jsstring) :
  (forall n,
     build_problem user_id date_parse_ok headers (values ++ repeat [] n)
     = build_problem user_id date_parse_ok headers values)
  /\ (forall surplus,
        (List.length headers <= List.length values)%nat ->
        build_problem user_id date_parse_ok headers (values ++ surplus)
        = build_problem user_id date_parse_ok headers values).
Proof.
  unfold build_problem. split.
  - intros n. apply forEach_header_ext. intros i. apply value_at_padded.
  - intros surplus Hlen. apply forEach_header_ext_upto. intros i Hi.
    unfold value_at. rewrite nth_error_app1 by lia. reflexivity.
Qed.
